(** * Dashboard API routes and components of the role-based agent system

    A shallow embedding of the TypeScript sources that the dashboard uses to
    submit and list tasks, to drive the boss state, to retry and cancel tasks
    and to create and scale the agent hierarchy:

    - the handlers of [/api/tasks] ([src/unnamed/part_010], first route):
      module [TasksApi];
    - [components/boss-state-manager.tsx] and the handlers of
      [/api/system/boss-state] ([src/unnamed/part_009], second route):
      module [BossStateManager];
    - [components/task-management.tsx]: module [TaskManagement];
    - the handlers of the agent hierarchy ([app/api/agents/route.ts], the
      route that owns [mockAgentHierarchy]): module [AgentHierarchy];
    - the handlers of the LLM providers ([src/unnamed/part_010], second
      route): module [LlmProviders];
    - the counters of the task page and the utilities that the components
      format times and statuses with ([src/unnamed/part_004]): modules
      [TaskCounts] and [DashboardUtils].

    Request bodies are JSON values, module-level mock stores are threaded
    explicitly through the handlers, and every reading of the clock
    ([Date.now()], [new Date()]) is an explicit argument. *)

From stdpp Require Import gmap strings list sorting pretty.
From Stdlib Require Import Ascii ZArith QArith Qround Qminmax Lia.

Set Warnings "-register-all".

Local Open Scope string_scope.
Local Open Scope list_scope.
Local Open Scope Z_scope.

(** ** JSON values, as [request.json()] delivers them *)

Module Json.

(** A JSON number is a double; it is modelled by the rational it denotes
    (the non-finite values and rounding are outside the model). *)
Inductive json : Type :=
  | JNull
  | JBool (b : bool)
  | JNum (q : Q)
  | JStr (s : string)
  | JArr (l : list json)
  | JObj (m : gmap string json).

(** [value.prop]: a property read on a value that is not [null].  Only
    plain data properties are modelled, which is all that the handlers
    read. *)
Definition prop (v : json) (k : string) : option json :=
  match v with
  | JObj m => m !! k
  | _ => None
  end.

(** JavaScript truthiness; [None] is [undefined]. *)
Definition truthy (v : option json) : bool :=
  match v with
  | None => false
  | Some JNull => false
  | Some (JBool b) => b
  | Some (JNum q) => negb (Qeq_bool q 0)
  | Some (JStr s) => negb (String.eqb s "")
  | Some (JArr _) => true
  | Some (JObj _) => true
  end.

(** *** Strings

    A string is held as the bytes of its UTF-8 form, a lone surrogate as the
    three bytes of its code.  JavaScript indexes a string by UTF-16 code
    unit: a character of one, two or three bytes is one unit, a character
    of four bytes is two, its surrogates. *)

Definition byte (c : ascii) : Z := Z.of_nat (nat_of_ascii c).

Definition of_byte (n : Z) : ascii := ascii_of_nat (Z.to_nat n).

Definition is_continuation (c : ascii) : bool :=
  (128 <=? byte c) && (byte c <? 192).

(** The string cut before every byte that is not a continuation byte: its
    characters. *)
Fixpoint code_points (s : string) : list string :=
  match s with
  | EmptyString => []
  | String c r =>
      let rest := code_points r in
      match r with
      | String c' _ =>
          if is_continuation c' then
            match rest with
            | g :: gs => String c g :: gs
            | [] => [String c EmptyString]
            end
          else String c EmptyString :: rest
      | EmptyString => [String c EmptyString]
      end
  end.

(** The three bytes of the code unit [u], for [u] from 0x0800 on. *)
Definition unit_bytes (u : Z) : string :=
  String (of_byte (224 + Z.shiftr u 12))
    (String (of_byte (128 + Z.land (Z.shiftr u 6) 63))
       (String (of_byte (128 + Z.land u 63)) EmptyString)).

(** The code units of one character. *)
Definition code_units (g : string) : list string :=
  match g with
  | String b1 (String b2 (String b3 (String b4 EmptyString))) =>
      if 240 <=? byte b1 then
        let cp := Z.shiftl (Z.land (byte b1) 7) 18
                  + Z.shiftl (Z.land (byte b2) 63) 12
                  + Z.shiftl (Z.land (byte b3) 63) 6
                  + Z.land (byte b4) 63 in
        let v := cp - 65536 in
        [unit_bytes (55296 + Z.shiftr v 10); unit_bytes (56320 + Z.land v 1023)]
      else [g]
  | _ => [g]
  end.

(** The code units of a string, each as a string of its own: [s[0]],
    [s[1]], ... *)
Definition chars (s : string) : list json :=
  JStr <$> concat (code_units <$> code_points s).

(** Whether the template literal [`${v}`] yields a string.  The conversion
    of an object calls its [toString]; a member of that name that came with
    the request is no function and hides the inherited method, and the
    conversion then throws a [TypeError].  An array joins the conversions
    of its elements. *)
Fixpoint renders (v : json) : bool :=
  match v with
  | JObj m => negb (bool_decide (is_Some (m !! "toString")))
  | JArr l => forallb renders l
  | JNull | JBool _ | JNum _ | JStr _ => true
  end.

(** Index keys ["0"], ["1"], ... paired with the elements of a list. *)
Definition indexed (l : list json) : list (string * json) :=
  imap (fun i v => (pretty i, v)) l.

(** The own enumerable properties that an object spread [{ ...v }] copies:
    the members of an object, the indices of an array or of the code units
    of a string, and nothing for [null], booleans and numbers. *)
Definition own_props (v : json) : gmap string json :=
  match v with
  | JObj m => m
  | JArr l => list_to_map (indexed l)
  | JStr s => list_to_map (indexed (chars s))
  | JNull | JBool _ | JNum _ => ∅
  end.

End Json.

Import Json.

(** ** Listing and creating tasks: the handlers of [/api/tasks] *)

Module TasksApi.

(** [TaskType] of [lib/types.ts]; an optional member is an [option]. *)
Inductive Priority := LOW | MEDIUM | HIGH | URGENT.

Record TaskType := mkTask {
  id : string;
  title : string;
  description : string;
  priority : Priority;
  status : string;
  assigned_agent : option string;
  capabilities_required : list string;
  created_at : string;
  updated_at : option string;
  completed_at : option string
}.

(** *** [parseInt] with no radix argument

    Leading white space (the white space and the line terminators of the
    language, in their UTF-8 form) is skipped, a sign is read, a [0x]
    prefix selects base sixteen, and the longest run of digits is
    converted; [None] is [NaN]. *)

Definition is_white (c : ascii) : bool :=
  match nat_of_ascii c with
  | 9%nat | 10%nat | 11%nat | 12%nat | 13%nat | 32%nat => true
  | _ => false
  end.

(** The white space of two bytes: U+00A0. *)
Definition is_white2 (c1 c2 : ascii) : bool :=
  (byte c1 =? 194) && (byte c2 =? 160).

(** The white space of three bytes: U+1680, U+2000 to U+200A, U+2028,
    U+2029, U+202F, U+205F, U+3000 and U+FEFF. *)
Definition is_white3 (c1 c2 c3 : ascii) : bool :=
  (byte c1 =? 225) && (byte c2 =? 154) && (byte c3 =? 128)
  || (byte c1 =? 226) && (byte c2 =? 128)
     && ((128 <=? byte c3) && (byte c3 <=? 138)
         || (byte c3 =? 168) || (byte c3 =? 169) || (byte c3 =? 175))
  || (byte c1 =? 226) && (byte c2 =? 129) && (byte c3 =? 159)
  || (byte c1 =? 227) && (byte c2 =? 128) && (byte c3 =? 128)
  || (byte c1 =? 239) && (byte c2 =? 187) && (byte c3 =? 191).

Fixpoint skip_white (s : string) : string :=
  match s with
  | String c1 r1 =>
      if is_white c1 then skip_white r1
      else
        match r1 with
        | String c2 r2 =>
            if is_white2 c1 c2 then skip_white r2
            else
              match r2 with
              | String c3 r3 =>
                  if is_white3 c1 c2 c3 then skip_white r3 else s
              | EmptyString => s
              end
        | EmptyString => s
        end
  | EmptyString => s
  end.

Definition digit_value (radix : Z) (c : ascii) : option Z :=
  let n := Z.of_nat (nat_of_ascii c) in
  let v := if (48 <=? n) && (n <=? 57) then Some (n - 48)
           else if (97 <=? n) && (n <=? 122) then Some (n - 87)
           else if (65 <=? n) && (n <=? 90) then Some (n - 55)
           else None in
  match v with
  | Some d => if d <? radix then Some d else None
  | None => None
  end.

Fixpoint digits (radix : Z) (acc : option Z) (s : string) : option Z :=
  match s with
  | String c s' =>
      match digit_value radix c with
      | Some d => digits radix (Some (radix * default 0 acc + d)) s'
      | None => acc
      end
  | EmptyString => acc
  end.

Definition parseInt (s : string) : option Z :=
  let s1 := skip_white s in
  let '(negative, s2) :=
    match s1 with
    | String "-" r => (true, r)
    | String "+" r => (false, r)
    | _ => (false, s1)
    end in
  let '(radix, s3) :=
    match s2 with
    | String "0" (String "x" r) => (16, r)
    | String "0" (String "X" r) => (16, r)
    | _ => (10, s2)
    end in
  match digits radix None s3 with
  | Some n => Some (if negative then - n else n)
  | None => None
  end.

(** [array.slice(0, limit)] for an integral [limit]: a negative end counts
    from the back. *)
Definition slice0 {A} (l : list A) (limit : Z) : list A :=
  let len := Z.of_nat (length l) in
  let last := if limit <? 0 then Z.max (len + limit) 0 else Z.min limit len in
  take (Z.to_nat last) l.

(** [a || b] on a query parameter: [null] and the empty string are falsy. *)
Definition or_else (a : option string) (b : string) : string :=
  match a with
  | Some s => if String.eqb s "" then b else s
  | None => b
  end.

Inductive Response :=
  | Listed (code : Z) (tasks : list TaskType)
  | Created (code : Z) (task : gmap string json)
  | Failed (code : Z) (error : string).

Definition code_of (r : Response) : Z :=
  match r with
  | Listed c _ | Created c _ | Failed c _ => c
  end.

(** [GET /api/tasks?status=..&limit=..] over the stored list [mockTasks];
    the arguments are what [searchParams.get] returns. *)
Definition GET (mockTasks : list TaskType) (status limit : option string)
  : Response :=
  let limit := parseInt (or_else limit "100") in
  let filteredTasks := mockTasks in
  let filteredTasks :=
    match status with
    | Some st =>
        if String.eqb st "" then filteredTasks
        else filter (fun task => task.(TasksApi.status) = st) filteredTasks
    | None => filteredTasks
    end in
  let filteredTasks :=
    match limit with
    | Some n => if n =? 0 then filteredTasks else slice0 filteredTasks n
    | None => filteredTasks
    end in
  Listed 200 filteredTasks.

Section Post.

(** [Date.prototype.toISOString], applied to the instant given in
    milliseconds since the epoch. *)
Variable toISOString : Z -> string.

(** The fields that the handler writes before spreading the request body. *)
Definition defaults (now : Z) : gmap string json :=
  <["id" := JStr ("task-" +:+ pretty now)]>
  (<["created_at" := JStr (toISOString now)]>
  (<["status" := JStr "pending"]>
  (<["retry_count" := JNum 0]>
  (<["max_retries" := JNum 3]> ∅)))).

(** [{ id: .., created_at: .., status: .., retry_count: .., max_retries: ..,
    ...taskData }]: the members of [taskData] are written last. *)
Definition newTask (now : Z) (taskData : json) : gmap string json :=
  own_props taskData ∪ defaults now.

(** [POST /api/tasks] at instant [now], which both readings of the clock
    return.  [body] is [None] when [request.json()] throws.  The stored list
    is passed through: the handler never writes to it. *)
Definition POST (now : Z) (body : option json) (mockTasks : list TaskType)
  : list TaskType * Response :=
  match body with
  | Some taskData => (mockTasks, Created 201 (newTask now taskData))
  | None => (mockTasks, Failed 500 "Failed to create task")
  end.

End Post.

End TasksApi.

(** ** Strings as the components transform them *)

Module Str.

Definition upper (c : ascii) : ascii :=
  let n := nat_of_ascii c in
  if (97 <=? n)%nat && (n <=? 122)%nat then ascii_of_nat (n - 32) else c.

Definition lower (c : ascii) : ascii :=
  let n := nat_of_ascii c in
  if (65 <=? n)%nat && (n <=? 90)%nat then ascii_of_nat (n + 32) else c.

Fixpoint map_chars (f : ascii -> ascii) (s : string) : string :=
  match s with
  | EmptyString => EmptyString
  | String c s' => String (f c) (map_chars f s')
  end.

(** [toUpperCase] and [toLowerCase] on the ASCII letters. *)
Definition toUpperCase : string -> string := map_chars upper.
Definition toLowerCase : string -> string := map_chars lower.

(** [s.includes(sub)] *)
Fixpoint includes (s sub : string) : bool :=
  if String.prefix sub s then true
  else match s with
       | String _ s' => includes s' sub
       | EmptyString => false
       end.

End Str.

(** ** The boss state: [components/boss-state-manager.tsx] and the
    [POST /api/system/boss-state] route *)

Module BossStateManager.

(** Modelled from the spec: the declaration of the enum [BossState] (module
    [lib/types] of the dashboard) is not among the sources.  Its members are
    the nine supervisor states of the spec, which are exactly the keys of
    [STATE_ACTIONS] below; the value of a member is its name in lower case,
    the form in which the components compare a state (['awake']) and which
    they print through [toUpperCase]. *)
Inductive BossState :=
  | IDLE | AWAKE | THINKING | RETHINK | EXECUTING
  | RESEARCHING | REFLECTING | RESTART | STOP.

#[export] Instance BossState_eq_dec : EqDecision BossState.
Proof. solve_decision. Defined.

Definition value (s : BossState) : string :=
  match s with
  | IDLE => "idle" | AWAKE => "awake" | THINKING => "thinking"
  | RETHINK => "rethink" | EXECUTING => "executing"
  | RESEARCHING => "researching" | REFLECTING => "reflecting"
  | RESTART => "restart" | STOP => "stop"
  end.

Definition members : list BossState :=
  [IDLE; AWAKE; THINKING; RETHINK; EXECUTING;
   RESEARCHING; REFLECTING; RESTART; STOP].

(** [Object.values(BossState)] *)
Definition values : list string := value <$> members.

(** The member whose value a string is, if any. *)
Definition of_value (v : string) : option BossState :=
  List.find (fun s => String.eqb (value s) v) members.

Definition STATE_ACTIONS (s : BossState) : list BossState :=
  match s with
  | IDLE => [AWAKE; STOP; RESTART]
  | AWAKE => [THINKING; EXECUTING; RESEARCHING; IDLE; STOP]
  | THINKING => [EXECUTING; RESEARCHING; RETHINK; REFLECTING; IDLE]
  | RETHINK => [THINKING; EXECUTING; REFLECTING; IDLE]
  | EXECUTING => [THINKING; REFLECTING; IDLE; AWAKE]
  | RESEARCHING => [THINKING; EXECUTING; REFLECTING; IDLE]
  | REFLECTING => [THINKING; IDLE; AWAKE]
  | RESTART => [IDLE; AWAKE]
  | STOP => []
  end.

Record HistoryEntry := mkEntry {
  state : BossState;
  timestamp : Z;      (* the instant whose ISO string is stored *)
  duration : Z
}.

Record Toast := mkToast {
  destructive : bool;
  toast_title : string;
  toast_description : string
}.

(** The state of the component: [overview.boss_state], [isLoading],
    [stateHistory], and the toasts shown so far. *)
Record UI := mkUI {
  boss_state : string;
  isLoading : bool;
  stateHistory : list HistoryEntry;
  toasts : list Toast
}.

(** The state at mount time [now]; [mock_boss_state] is
    [mockSystemOverview.boss_state]. *)
Definition initial (mock_boss_state : string) (now : Z) : UI :=
  {| boss_state := mock_boss_state;
     isLoading := false;
     stateHistory :=
       [ mkEntry IDLE (now - 3600000) 1800;
         mkEntry AWAKE (now - 1800000) 1800;
         mkEntry THINKING (now - 900000) 600;
         mkEntry EXECUTING (now - 300000) 300 ];
     toasts := [] |}.

(** [STATE_ACTIONS[currentState as BossState] || []] *)
Definition possibleActions (ui : UI) : list BossState :=
  match of_value (boss_state ui) with
  | Some s => STATE_ACTIONS s
  | None => []
  end.

Definition setIsLoading (b : bool) (ui : UI) : UI :=
  {| boss_state := boss_state ui; isLoading := b;
     stateHistory := stateHistory ui; toasts := toasts ui |}.

Definition setOverview (newState : BossState) (ui : UI) : UI :=
  {| boss_state := value newState; isLoading := isLoading ui;
     stateHistory := stateHistory ui; toasts := toasts ui |}.

Definition setStateHistory (e : HistoryEntry) (ui : UI) : UI :=
  {| boss_state := boss_state ui; isLoading := isLoading ui;
     stateHistory := stateHistory ui ++ [e]; toasts := toasts ui |}.

Definition toast (t : Toast) (ui : UI) : UI :=
  {| boss_state := boss_state ui; isLoading := isLoading ui;
     stateHistory := stateHistory ui; toasts := toasts ui ++ [t] |}.

(** [handleStateChange(newState)], completed at instant [now]: the body of
    the [try] block cannot throw, so the [catch] branch is never taken. *)
Definition handleStateChange (now : Z) (newState : BossState) (ui : UI) : UI :=
  let ui := setIsLoading true ui in
  let ui := setOverview newState ui in
  let ui := setStateHistory (mkEntry newState now 0) ui in
  let ui := toast (mkToast false "State Changed"
                     ("Boss state changed to " +:+ Str.toUpperCase (value newState))) ui in
  setIsLoading false ui.

(** A press on the button of [action]: one button is rendered for each member
    of [possibleActions], disabled while [isLoading] (which holds for as
    long as a change is under way, so that presses do not overlap). *)
Definition click (now : Z) (action : BossState) (ui : UI) : option UI :=
  if bool_decide (action ∈ possibleActions ui) && negb (isLoading ui)
  then Some (handleStateChange now action ui)
  else None.

Inductive Response :=
  | Success (code : Z)
  | Error (code : Z) (error : string).

(** [POST /api/system/boss-state].  [body] is [None] when [request.json()]
    throws; destructuring [null] throws too.  [mock_boss_state], the state
    that the [GET] handler of the route reports, is passed through: the
    handler neither reads nor writes it. *)
Definition POST (body : option json) (mock_boss_state : string)
  : string * Response :=
  match body with
  | None | Some JNull => (mock_boss_state, Error 500 "Failed to set boss state")
  | Some b =>
      match prop b "state" with
      | Some (JStr s) =>
          if bool_decide (s ∈ values) then (mock_boss_state, Success 200)
          else (mock_boss_state, Error 400 "Invalid boss state")
      | _ => (mock_boss_state, Error 400 "Invalid boss state")
      end
  end.

End BossStateManager.

(** ** Retrying and cancelling tasks: [components/task-management.tsx] *)

Module TaskManagement.

(** Modelled from the spec: the declarations of [TaskStatus], [TaskPriority]
    and [TaskDefinition] (module [lib/types] of the dashboard) are not among
    the sources.  [TaskStatus] has the five members that [getStatusIcon]
    distinguishes, with the lower-case values of the status filter;
    [TaskPriority] is the ordered enum of the spec; [TaskDefinition] has the
    members that the component reads. *)
Inductive TaskStatus := PENDING | RUNNING | COMPLETED | FAILED | CANCELLED.

Inductive TaskPriority := LOW | MEDIUM | HIGH | URGENT.

#[export] Instance TaskStatus_eq_dec : EqDecision TaskStatus.
Proof. solve_decision. Defined.

Definition value (s : TaskStatus) : string :=
  match s with
  | PENDING => "pending" | RUNNING => "running" | COMPLETED => "completed"
  | FAILED => "failed" | CANCELLED => "cancelled"
  end.

Record TaskDefinition := mkTask {
  id : string;
  name : string;
  description : string;
  status : TaskStatus;
  priority : TaskPriority;
  created_at : string;
  assigned_agent_id : option string;
  started_at : option string;
  completed_at : option string;
  retry_count : Z;
  max_retries : Z;
  error_message : option string
}.

#[export] Instance TaskPriority_eq_dec : EqDecision TaskPriority.
Proof. solve_decision. Defined.

#[export] Instance TaskDefinition_eq_dec : EqDecision TaskDefinition.
Proof. solve_decision. Defined.

Record Toast := mkToast {
  destructive : bool;
  toast_title : string;
  toast_description : string
}.

Inductive Action := retry | cancel.

(** The state of the component; [filteredTasks] is recomputed from it by the
    effect after every change. *)
Record UI := mkUI {
  tasks : list TaskDefinition;
  selectedStatus : string;
  searchQuery : string;
  isLoading : bool;
  toasts : list Toast
}.

Definition matches_status (selected : string) (task : TaskDefinition) : bool :=
  String.eqb (value (status task)) selected.

Definition matches_query (query : string) (task : TaskDefinition) : bool :=
  Str.includes (Str.toLowerCase (name task)) (Str.toLowerCase query)
  || Str.includes (Str.toLowerCase (description task)) (Str.toLowerCase query).

Definition filteredTasks (ui : UI) : list TaskDefinition :=
  let filtered := tasks ui in
  let filtered :=
    if negb (String.eqb (selectedStatus ui) "all")
    then List.filter (matches_status (selectedStatus ui)) filtered
    else filtered in
  let filtered :=
    if negb (String.eqb (searchQuery ui) "")
    then List.filter (matches_query (searchQuery ui)) filtered
    else filtered in
  filtered.

(** The two updaters that [handleTaskAction] passes to [setTasks]. *)
Definition retried (taskId : string) (task : TaskDefinition) : TaskDefinition :=
  if String.eqb (id task) taskId
  then {| id := id task; name := name task; description := description task;
          status := PENDING;
          priority := priority task; created_at := created_at task;
          assigned_agent_id := assigned_agent_id task;
          started_at := started_at task; completed_at := completed_at task;
          retry_count := retry_count task + 1;
          max_retries := max_retries task;
          error_message := error_message task |}
  else task.

Definition cancelled (taskId : string) (task : TaskDefinition) : TaskDefinition :=
  if String.eqb (id task) taskId
  then {| id := id task; name := name task; description := description task;
          status := CANCELLED;
          priority := priority task; created_at := created_at task;
          assigned_agent_id := assigned_agent_id task;
          started_at := started_at task; completed_at := completed_at task;
          retry_count := retry_count task;
          max_retries := max_retries task;
          error_message := error_message task |}
  else task.

Definition setTasks (f : list TaskDefinition -> list TaskDefinition) (ui : UI) : UI :=
  {| tasks := f (tasks ui); selectedStatus := selectedStatus ui;
     searchQuery := searchQuery ui; isLoading := isLoading ui;
     toasts := toasts ui |}.

Definition setIsLoading (b : bool) (ui : UI) : UI :=
  {| tasks := tasks ui; selectedStatus := selectedStatus ui;
     searchQuery := searchQuery ui; isLoading := b; toasts := toasts ui |}.

Definition setSelectedStatus (s : string) (ui : UI) : UI :=
  {| tasks := tasks ui; selectedStatus := s;
     searchQuery := searchQuery ui; isLoading := isLoading ui;
     toasts := toasts ui |}.

Definition setSearchQuery (q : string) (ui : UI) : UI :=
  {| tasks := tasks ui; selectedStatus := selectedStatus ui;
     searchQuery := q; isLoading := isLoading ui; toasts := toasts ui |}.

Definition toast (t : Toast) (ui : UI) : UI :=
  {| tasks := tasks ui; selectedStatus := selectedStatus ui;
     searchQuery := searchQuery ui; isLoading := isLoading ui;
     toasts := toasts ui ++ [t] |}.

(** [handleTaskAction(taskId, action)], completed: nothing in the [try]
    block throws. *)
Definition handleTaskAction (taskId : string) (action : Action) (ui : UI) : UI :=
  let ui := setIsLoading true ui in
  let ui :=
    match action with
    | retry => setTasks (fmap (retried taskId)) ui
    | cancel => setTasks (fmap (cancelled taskId)) ui
    end in
  let ui := toast (mkToast false "Task Updated"
                     ("Task has been " +:+
                      match action with retry => "retried" | cancel => "cancelled" end)) ui in
  setIsLoading false ui.

(** The conditions under which the row of a task shows its two buttons. *)
Definition retry_offered (task : TaskDefinition) : bool :=
  bool_decide (status task = FAILED) && (retry_count task <? max_retries task).

Definition cancel_offered (task : TaskDefinition) : bool :=
  bool_decide (status task = PENDING) || bool_decide (status task = RUNNING).

Definition offered (action : Action) (task : TaskDefinition) : bool :=
  match action with
  | retry => retry_offered task
  | cancel => cancel_offered task
  end.

(** What a user can do: change the two filters, or press a button that is
    rendered (the task is listed and the action is offered for it) and
    enabled. *)
Inductive Event :=
  | Press (task : TaskDefinition) (action : Action)
  | SelectStatus (s : string)
  | TypeQuery (q : string).

Definition step (e : Event) (ui : UI) : option UI :=
  match e with
  | Press task action =>
      if bool_decide (task ∈ filteredTasks ui) && offered action task
         && negb (isLoading ui)
      then Some (handleTaskAction (id task) action ui)
      else None
  | SelectStatus s => Some (setSelectedStatus s ui)
  | TypeQuery q => Some (setSearchQuery q ui)
  end.

Fixpoint run (es : list Event) (ui : UI) : option UI :=
  match es with
  | [] => Some ui
  | e :: es' =>
      match step e ui with
      | Some ui' => run es' ui'
      | None => None
      end
  end.

End TaskManagement.

(** ** The agent hierarchy: the handlers over [mockAgentHierarchy] *)

Module AgentHierarchy.

Local Open Scope Q_scope.
Local Open Scope Z_scope.

(** One agent record.  [last_active] is the instant (milliseconds since the
    epoch) whose ISO string the source stores; [agent_name] is whatever value
    the request carried; a number that need not be integral is a rational. *)
Record Agent := mkAgent {
  agent_id : Z;
  display_name : string;
  agent_name : json;
  role : string;
  status : string;
  completed_tasks : Z;
  capabilities : list string;
  performance_score : Q;
  last_active : Z;
  current_task : option string
}.

Record Stats := mkStats {
  active_agents : Z;
  idle_agents : Z;
  busy_agents : Z;
  average_performance : Q;
  total_completed_tasks : Z
}.

(** The module-level object [mockAgentHierarchy]. *)
Record Hierarchy := mkHierarchy {
  boss_agent : Agent;
  subordinate_agents : list Agent;
  total_agents : Z;
  next_agent_id : Z;
  hierarchy_stats : Stats
}.

(** Its value when the module is loaded; [boot] is the instant that the
    readings of the clock return then. *)
Definition mockAgentHierarchy (boot : Z) : Hierarchy :=
  {| boss_agent :=
       {| agent_id := 0;
          display_name := "Boss (Agent 0)";
          agent_name := JStr "Boss Agent";
          role := "boss";
          status := "active";
          completed_tasks := 15;
          capabilities :=
            ["strategic_decision_making"; "task_delegation";
             "system_orchestration"; "agent_management";
             "priority_assessment"; "resource_allocation"];
          performance_score := 1;
          last_active := boot;
          current_task := Some "Monitoring system operations" |};
     subordinate_agents :=
       [ {| agent_id := 1;
            display_name := "Agent 1";
            agent_name := JStr "Trading Agent";
            role := "subordinate";
            status := "idle";
            completed_tasks := 8;
            capabilities :=
              ["task_execution"; "problem_solving"; "data_processing";
               "market_analysis"; "order_execution"; "risk_management"];
            performance_score := 85 # 100;
            last_active := boot - 300000;
            current_task := None |};
         {| agent_id := 2;
            display_name := "Agent 2";
            agent_name := JStr "Analysis Agent";
            role := "subordinate";
            status := "busy";
            completed_tasks := 12;
            capabilities :=
              ["task_execution"; "problem_solving"; "data_processing";
               "data_analysis"; "pattern_recognition"; "reporting"];
            performance_score := 92 # 100;
            last_active := boot;
            current_task := Some "Analyzing market trends" |} ];
     total_agents := 3;
     next_agent_id := 3;
     hierarchy_stats :=
       {| active_agents := 2;
          idle_agents := 1;
          busy_agents := 1;
          average_performance := 92 # 100;
          total_completed_tasks := 35 |} |}.

(** The record that both branches build for a new subordinate. *)
Definition newAgent (now : Z) (n : Z) (nm : json) : Agent :=
  {| agent_id := n;
     display_name := "Agent " +:+ pretty n;
     agent_name := nm;
     role := "subordinate";
     status := "idle";
     completed_tasks := 0;
     capabilities := ["task_execution"; "problem_solving"; "data_processing"];
     performance_score := 8 # 10;
     last_active := now;
     current_task := None |}.

(** [for (let i = 0; i < bound; i++) body(i)]: the loop runs for
    [i = 0, 1, ..] as long as [i < bound], that is [loop_count bound] times
    (see [loop_count_spec]). *)
Definition loop_count (bound : Q) : nat := Z.to_nat (Qceiling bound).

Definition for_loop {S : Type} (bound : Q) (body : nat -> S -> S) (s : S) : S :=
  foldl (fun s i => body i s) s (seq 0 (loop_count bound)).

(** *** [create_agent] *)

Definition with_idle_agents (n : Z) (st : Stats) : Stats :=
  {| active_agents := active_agents st; idle_agents := n;
     busy_agents := busy_agents st;
     average_performance := average_performance st;
     total_completed_tasks := total_completed_tasks st |}.

Definition create_agent (now : Z) (nm : json) (h : Hierarchy) : Hierarchy :=
  let a := newAgent now (next_agent_id h) nm in
  {| boss_agent := boss_agent h;
     subordinate_agents := subordinate_agents h ++ [a];
     total_agents := total_agents h + 1;
     next_agent_id := next_agent_id h + 1;
     hierarchy_stats :=
       with_idle_agents (idle_agents (hierarchy_stats h) + 1) (hierarchy_stats h) |}.

(** *** [scale_agents] *)

(** One turn of the loop that adds agents. *)
Definition add_auto_agent (now : Z) (h : Hierarchy) : Hierarchy :=
  let n := next_agent_id h in
  let a := newAgent now n (JStr ("Auto Agent " +:+ pretty n)) in
  {| boss_agent := boss_agent h;
     subordinate_agents := subordinate_agents h ++ [a];
     total_agents := total_agents h;
     next_agent_id := n + 1;
     hierarchy_stats := hierarchy_stats h |}.

(** [subs.findIndex(a => a.agent_id === n)] followed by
    [splice(agentIndex, 1)] when an index was found. *)
Definition remove_by_id (n : Z) (subs : list Agent) : list Agent :=
  match list_find (fun a => agent_id a = n) subs with
  | Some (agentIndex, _) => delete agentIndex subs
  | None => subs
  end.

(** One turn of the loop that removes agents; [idleAgents[i]] exists in
    every turn because [i < idleAgents.length]. *)
Definition remove_idle_at (idleAgents : list Agent) (i : nat)
    (subs : list Agent) : list Agent :=
  match idleAgents !! i with
  | Some a => remove_by_id (agent_id a) subs
  | None => subs
  end.

Definition with_subordinates (subs : list Agent) (h : Hierarchy) : Hierarchy :=
  {| boss_agent := boss_agent h;
     subordinate_agents := subs;
     total_agents := total_agents h;
     next_agent_id := next_agent_id h;
     hierarchy_stats := hierarchy_stats h |}.

Definition count_status (st : string) (subs : list Agent) : Z :=
  Z.of_nat (length (filter (fun a => status a = st) subs)).

(** The statements after the two branches: the counter and the statistics
    are recomputed from the records. *)
Definition recount (h : Hierarchy) : Hierarchy :=
  let subs := subordinate_agents h in
  let total := Z.of_nat (length subs) + 1 in
  {| boss_agent := boss_agent h;
     subordinate_agents := subs;
     total_agents := total;
     next_agent_id := next_agent_id h;
     hierarchy_stats :=
       {| active_agents := count_status "active" subs + 1;
          idle_agents := count_status "idle" subs;
          busy_agents := count_status "busy" subs;
          average_performance :=
            (foldl (fun sum a => sum + performance_score a) 1 subs
             / inject_Z total)%Q;
          total_completed_tasks :=
            foldl (fun sum a => sum + completed_tasks a) 15 subs |} |}.

Definition scale_agents (now : Z) (target_count : Q) (h : Hierarchy) : Hierarchy :=
  let currentSubordinates := inject_Z (Z.of_nat (length (subordinate_agents h))) in
  let h :=
    if Qlt_le_dec currentSubordinates target_count then
      let toAdd := (target_count - currentSubordinates)%Q in
      for_loop toAdd (fun _ => add_auto_agent now) h
    else if Qlt_le_dec target_count currentSubordinates then
      let toRemove := (currentSubordinates - target_count)%Q in
      let idleAgents := filter (fun a => status a = "idle") (subordinate_agents h) in
      let bound := Qmin toRemove (inject_Z (Z.of_nat (length idleAgents))) in
      with_subordinates
        (for_loop bound (remove_idle_at idleAgents) (subordinate_agents h)) h
    else h in
  recount h.

(** *** The handler *)

Inductive Message :=
  | AgentNameRequired                              (* "Agent name is required" *)
  | CreatedAgent (n : Z) (agent_name : json)       (* `Created Agent ${n} (${agent_name})` *)
  | TargetMustBeNumber                             (* "Target count must be a number" *)
  | ScaledTo (target_count : Q)                    (* `Scaled to ${target_count} subordinate agents` *)
  | InvalidAction                                  (* "Invalid action" *)
  | InternalServerError.                           (* "Internal server error" *)

Record Response := mkResponse {
  code : Z;
  success : bool;
  message : Message;
  data : option Hierarchy
}.

Definition is_string (v : option json) (s : string) : bool :=
  match v with
  | Some (JStr s') => String.eqb s' s
  | _ => false
  end.

(** [POST /api/agents/hierarchy] on the store [h]; [now] is the instant
    that every reading of the clock returns while the request is served.
    [body] is [None] when [request.json()] throws; destructuring [null]
    throws too.  In [create_agent] the message is rendered after the agent
    has been stored: when [agent_name] cannot be converted to a string the
    handler throws then, and answers 500 with the agent in the store. *)
Definition POST (now : Z) (body : option json) (h : Hierarchy)
  : Hierarchy * Response :=
  match body with
  | None | Some JNull => (h, mkResponse 500 false InternalServerError None)
  | Some b =>
      let action := prop b "action" in
      let agent_name := prop b "agent_name" in
      let target_count := prop b "target_count" in
      if is_string action "create_agent" then
        match agent_name with
        | Some nm =>
            if truthy agent_name then
              let h' := create_agent now nm h in
              if renders nm then
                (h', mkResponse 200 true (CreatedAgent (next_agent_id h) nm) (Some h'))
              else (h', mkResponse 500 false InternalServerError None)
            else (h, mkResponse 400 false AgentNameRequired None)
        | None => (h, mkResponse 400 false AgentNameRequired None)
        end
      else if is_string action "scale_agents" then
        match target_count with
        | Some (JNum q) =>
            let h' := scale_agents now q h in
            (h', mkResponse 200 true (ScaledTo q) (Some h'))
        | _ => (h, mkResponse 400 false TargetMustBeNumber None)
        end
      else (h, mkResponse 400 false InvalidAction None)
  end.

(** The two request bodies the dashboard sends. *)
Definition create_request (nm : string) : option json :=
  Some (JObj (<["action" := JStr "create_agent"]> (<["agent_name" := JStr nm]> ∅))).

Definition scale_request (target_count : Q) : option json :=
  Some (JObj (<["action" := JStr "scale_agents"]> (<["target_count" := JNum target_count]> ∅))).

(** The store after a sequence of requests, each with the instant at which
    it is served, on a module loaded at [boot]. *)
Definition serve (h : Hierarchy) (r : Z * option json) : Hierarchy :=
  (POST r.1 r.2 h).1.

Definition run (boot : Z) (reqs : list (Z * option json)) : Hierarchy :=
  foldl serve (mockAgentHierarchy boot) reqs.

(** The clock never runs backwards: the instants of [boot], of the requests
    in order, and [now] are non-decreasing. *)
Definition monotone_clock (boot : Z) (reqs : list (Z * option json)) (now : Z) : Prop :=
  Sorted Z.le (boot :: (fst <$> reqs) ++ [now]).

End AgentHierarchy.

(** ** Requests and stored tasks that the statements about the task routes use *)

Module TasksApiCases.

Import TasksApi.

(** The tasks that pass the status filter of [GET]. *)
Definition with_status (status : option string) (stored : list TaskType)
  : list TaskType :=
  match status with
  | Some st =>
      if String.eqb st "" then stored
      else filter (fun task => task.(TasksApi.status) = st) stored
  | None => stored
  end.

(** A formatter to evaluate the handler with. *)
Definition iso0 : Z -> string := fun _ => "2025-08-18T00:00:00.000Z".

(** [{ name: "", priority: "bogus", max_retries: -1 }] *)
Definition malformed_spec : json :=
  JObj (<["name" := JStr ""]> (<["priority" := JStr "bogus"]>
       (<["max_retries" := JNum (-1)]> ∅))).

(** [{ id: "mine", status: "completed", retry_count: 7, max_retries: 0 }] *)
Definition overriding_spec : json :=
  JObj (<["id" := JStr "mine"]> (<["status" := JStr "completed"]>
       (<["retry_count" := JNum 7]> (<["max_retries" := JNum 0]> ∅)))).

(** Three pending tasks, stored in the order in which they were submitted. *)
Definition submitted (n : string) (p : Priority) (t : string) : TaskType :=
  {| id := n; title := n; description := ""; priority := p;
     status := "PENDING"; assigned_agent := None;
     capabilities_required := []; created_at := t;
     updated_at := None; completed_at := None |}.

Definition low_task := submitted "task_low" LOW "2025-08-18T00:00:00.000000".
Definition urgent_task := submitted "task_urgent" URGENT "2025-08-18T00:01:00.000000".
Definition medium_task := submitted "task_medium" MEDIUM "2025-08-18T00:02:00.000000".

End TasksApiCases.

(** ** A component state and a request that the statements about the boss state use *)

Module BossStateCases.

Import BossStateManager.

(** A stopped machine, as the component holds it. *)
Definition stopped : UI :=
  {| boss_state := "stop"; isLoading := false;
     stateHistory := [mkEntry STOP 1755475200000 0]; toasts := [] |}.

(** [{ state: s }] *)
Definition state_request (s : string) : option json :=
  Some (JObj (<["state" := JStr s]> ∅)).

End BossStateCases.

(** ** A task board that the statements about retrying and cancelling use *)

Module TaskManagementCases.

Import TaskManagement.

(** The updater that an action maps over the tasks. *)
Definition updater (action : Action) : string -> TaskDefinition -> TaskDefinition :=
  match action with
  | retry => retried
  | cancel => cancelled
  end.

(** A board with a task that failed once, a task that used up its
    retries, a running task and a completed one. *)
Definition sample (n : string) (st : TaskStatus) (rc mr : Z) : TaskDefinition :=
  mkTask n n "" st MEDIUM "2025-08-18T00:00:00.000000" None None None rc mr None.

Definition failed_once := sample "task_1" FAILED 1 3.
Definition exhausted := sample "task_2" FAILED 3 3.
Definition in_flight := sample "task_3" RUNNING 0 3.
Definition finished := sample "task_4" COMPLETED 0 3.

Definition board : UI :=
  mkUI [failed_once; exhausted; in_flight; finished] "all" "" false [].

End TaskManagementCases.

(** ** Notions that the statements about the agent hierarchy use *)

Module AgentHierarchyNotions.

Import AgentHierarchy.

Definition is_idle (a : Agent) : Prop := status a = "idle".

(** The record that the loop adds for the id [n]. *)
Definition auto_agent (now n : Z) : Agent :=
  newAgent now n (JStr ("Auto Agent " +:+ pretty n)).

(** The bound of the loop that removes agents. *)
Definition removal_bound (target_count : Q) (subs : list Agent) : Q :=
  Qmin (inject_Z (Z.of_nat (length subs)) - target_count)%Q
       (inject_Z (Z.of_nat (length (filter is_idle subs)))).

(** New idle agents, created at [now] and numbered from [next_agent_id], are
    appended. *)
Definition grows (now : Z) (h h' : Hierarchy) : Prop :=
  boss_agent h' = boss_agent h /\
  exists news,
    subordinate_agents h' = subordinate_agents h ++ news /\
    Forall (fun a => is_idle a /\ last_active a = now) news /\
    agent_id <$> news = seqZ (next_agent_id h) (Z.of_nat (length news)) /\
    next_agent_id h' = next_agent_id h + Z.of_nat (length news).

(** Some agents are taken out. *)
Definition shrinks (h h' : Hierarchy) : Prop :=
  boss_agent h' = boss_agent h /\
  subordinate_agents h' `sublist_of` subordinate_agents h /\
  next_agent_id h' = next_agent_id h.

(** The ids of the subordinates are distinct and below [next_agent_id]. *)
Definition ids_ok (h : Hierarchy) : Prop :=
  NoDup (agent_id <$> subordinate_agents h) /\
  Forall (fun a => agent_id a < next_agent_id h) (subordinate_agents h).

Definition not_after (a b : Agent) : Prop := last_active a <= last_active b.

(** The subordinates are stored in the order of [last_active], none of them
    active later than [T]. *)
Definition times_ok (T : Z) (h : Hierarchy) : Prop :=
  StronglySorted not_after (subordinate_agents h) /\
  Forall (fun a => last_active a <= T) (subordinate_agents h).

(** [total_agents] counts the subordinates and the boss, whose id is 0. *)
Definition counted (h : Hierarchy) : Prop :=
  total_agents h = Z.of_nat (length (subordinate_agents h)) + 1 /\
  agent_id (boss_agent h) = 0.

(** A module loaded at 1000000, on which one agent is created and the
    hierarchy is then scaled to five subordinates. *)
Definition sample_requests : list (Z * option json) :=
  [(1000100, create_request "Scout"); (1000200, scale_request 5)].

End AgentHierarchyNotions.

(** ** The LLM providers: the handlers over [mockLLMProviders] *)

Module LlmProviders.

Record Provider := mkProvider {
  is_active : bool;
  has_api_key : bool;
  is_initialized : bool;
  model : string;
  base_url : string
}.

(** The module-level object [mockLLMProviders]; [providers] is used as a
    map from provider names to their records. *)
Record Store := mkStore {
  active_provider : option string;
  providers : gmap string Provider
}.

Definition fresh (m u : string) : Provider :=
  {| is_active := false; has_api_key := false; is_initialized := false;
     model := m; base_url := u |}.

Definition mockLLMProviders : Store :=
  {| active_provider := None;
     providers :=
       <["openai" := fresh "gpt-4-turbo-preview" "https://api.openai.com/v1"]>
       (<["grok" := fresh "grok-beta" "https://api.x.ai/v1"]>
       (<["ollama" := fresh "llama3.1" "http://localhost:11434"]>
       (<["google" := fresh "gemini-1.5-pro"
                        "https://generativelanguage.googleapis.com/v1beta"]>
       (<["openrouter" := fresh "anthropic/claude-3-haiku"
                            "https://openrouter.ai/api/v1"]> ∅)))) |}.

(** The names that every object inherits from [Object.prototype]: [in]
    holds for them too, and the handlers would then write to the inherited
    object.  Requests that name one of them are outside the model. *)
Definition inherited : list string :=
  ["constructor"; "__proto__"; "hasOwnProperty"; "isPrototypeOf";
   "propertyIsEnumerable"; "toLocaleString"; "toString"; "valueOf";
   "__defineGetter__"; "__defineSetter__"; "__lookupGetter__";
   "__lookupSetter__"].

(** The three assignments of [set_api_key] to [providerData]. *)
Definition with_key (p : Provider) : Provider :=
  {| is_active := true; has_api_key := true; is_initialized := true;
     model := model p; base_url := base_url p |}.

Inductive TestMessage :=
  | WorkingCorrectly (provider : string)  (* `Provider ${provider} is working correctly` *)
  | NeedsApiKey (provider : string).      (* `Provider ${provider} needs API key` *)

Record TestResult := mkTestResult {
  test_status : string;
  test_message : TestMessage;
  test_response : option string
}.

Inductive Message :=
  | ProviderAndKeyRequired            (* "Provider and API key are required" *)
  | ApiKeySetFor (provider : string)  (* `API key set for ${provider}` *)
  | ProviderRequired                  (* "Provider is required" *)
  | SwitchedTo (provider : string)    (* `Switched to ${provider}` *)
  | NotInitialized (provider : string)(* `Provider ${provider} is not initialized` *)
  | InvalidAction                     (* "Invalid action" *)
  | InternalServerError.              (* "Internal server error" *)

Inductive Response :=
  | Listed (code : Z) (success : bool) (data : Store)
  | Answer (code : Z) (success : bool) (message : Message) (data : option Store)
  | Tested (code : Z) (success : bool) (data : TestResult).

Definition code_of (r : Response) : Z :=
  match r with
  | Listed c _ _ | Answer c _ _ _ | Tested c _ _ => c
  end.

(** [GET]: the store, as it is. *)
Definition GET (s : Store) : Store * Response :=
  (s, Listed 200 true s).

Definition set_api_key (provider : string) (s : Store) : Store :=
  match providers s !! provider with
  | Some providerData =>
      {| active_provider :=
           match active_provider s with
           | Some a => Some a
           | None => Some provider
           end;
         providers := <[provider := with_key providerData]> (providers s) |}
  | None => s
  end.

Definition test_provider (provider : string) (s : Store) : TestResult :=
  let has_key :=
    match providers s !! provider with
    | Some providerData => has_api_key providerData
    | None => false
    end in
  {| test_status := if has_key then "success" else "error";
     test_message :=
       if has_key then WorkingCorrectly provider else NeedsApiKey provider;
     test_response :=
       if has_key then Some "Hello! I'm working correctly." else None |}.

(** What the handler reads of [provider]: nothing when it is falsy, its
    name when it is a string, and no answer of the model otherwise. *)
Inductive Named :=
  | Missing
  | Name (provider : string)
  | Unmodelled.

Definition named (v : option json) : Named :=
  if negb (truthy v) then Missing
  else match v with
       | Some (JStr s) => if bool_decide (s ∈ inherited) then Unmodelled else Name s
       | _ => Unmodelled
       end.

(** [POST] on the store [s].  [body] is [None] when [request.json()]
    throws; destructuring [null] throws too.  The result is [None] for a
    request outside the model: one whose [provider] is looked up in
    [providers] and is a truthy value other than a string, or a string in
    [inherited]. *)
Definition POST (body : option json) (s : Store) : option (Store * Response) :=
  match body with
  | None | Some JNull => Some (s, Answer 500 false InternalServerError None)
  | Some b =>
      let action := prop b "action" in
      let provider := named (prop b "provider") in
      let api_key := prop b "api_key" in
      if AgentHierarchy.is_string action "set_api_key" then
        match provider with
        | Missing => Some (s, Answer 400 false ProviderAndKeyRequired None)
        | Name p =>
            if truthy api_key then
              let s' := set_api_key p s in
              Some (s', Answer 200 true (ApiKeySetFor p) (Some s'))
            else Some (s, Answer 400 false ProviderAndKeyRequired None)
        | Unmodelled =>
            if truthy api_key then None
            else Some (s, Answer 400 false ProviderAndKeyRequired None)
        end
      else if AgentHierarchy.is_string action "switch_provider" then
        match provider with
        | Missing => Some (s, Answer 400 false ProviderRequired None)
        | Name p =>
            match providers s !! p with
            | Some providerData =>
                if is_initialized providerData then
                  let s' := {| active_provider := Some p; providers := providers s |} in
                  Some (s', Answer 200 true (SwitchedTo p) (Some s'))
                else Some (s, Answer 400 false (NotInitialized p) None)
            | None => Some (s, Answer 400 false (NotInitialized p) None)
            end
        | Unmodelled => None
        end
      else if AgentHierarchy.is_string action "test_provider" then
        match provider with
        | Missing => Some (s, Answer 400 false ProviderRequired None)
        | Name p => Some (s, Tested 200 true (test_provider p s))
        | Unmodelled => None
        end
      else Some (s, Answer 400 false InvalidAction None)
  end.

(** The store after a sequence of requests, when all are in the model. *)
Fixpoint run (bodies : list (option json)) (s : Store) : option Store :=
  match bodies with
  | [] => Some s
  | body :: rest =>
      match POST body s with
      | Some (s', _) => run rest s'
      | None => None
      end
  end.

(** The request bodies of the three actions. *)
Definition set_api_key_request (provider api_key : string) : option json :=
  Some (JObj (<["action" := JStr "set_api_key"]>
             (<["provider" := JStr provider]>
             (<["api_key" := JStr api_key]> ∅)))).

Definition switch_request (provider : string) : option json :=
  Some (JObj (<["action" := JStr "switch_provider"]>
             (<["provider" := JStr provider]> ∅))).

Definition test_request (provider : string) : option json :=
  Some (JObj (<["action" := JStr "test_provider"]>
             (<["provider" := JStr provider]> ∅))).

End LlmProviders.

(** ** The counters of the task page: [taskCounts] of
    [components/task-management.tsx] *)

Module TaskCounts.

Import TaskManagement.

Record Counts := mkCounts {
  all : Z;
  pending : Z;
  running : Z;
  completed : Z;
  failed : Z
}.

(** [tasks.filter(t => t.status === st).length || 0] *)
Definition count (st : TaskStatus) (tasks : list TaskDefinition) : Z :=
  Z.of_nat (length (filter (fun t => status t = st) tasks)).

Definition taskCounts (ui : UI) : Counts :=
  {| all := Z.of_nat (length (tasks ui));
     pending := count PENDING (tasks ui);
     running := count RUNNING (tasks ui);
     completed := count COMPLETED (tasks ui);
     failed := count FAILED (tasks ui) |}.

End TaskCounts.

(** ** Sequences of presses on the boss state buttons *)

Module BossStatePresses.

Import BossStateManager.

(** The component after the presses [ps], each with the instant at which
    its change completes; [None] when a press is on a button that is not
    rendered or not enabled. *)
Fixpoint presses (ps : list (Z * BossState)) (ui : UI) : option UI :=
  match ps with
  | [] => Some ui
  | (now, action) :: rest =>
      match click now action ui with
      | Some ui' => presses rest ui'
      | None => None
      end
  end.

End BossStatePresses.

(** ** The dashboard utilities: [formatRelativeTime] and [getStatusColor]
    ([src/unnamed/part_004]) *)

Module DashboardUtils.

(** [formatRelativeTime(timestamp)] evaluated at instant [now].  [time] is
    the instant that [new Date(timestamp)] denotes, in milliseconds, and
    [None] when the timestamp does not parse: every comparison with [NaN]
    fails, and the last branch prints [NaN]. *)
Definition formatRelativeTime (now : Z) (time : option Z) : string :=
  match time with
  | None => "NaNd ago"
  | Some t =>
      let diffInSeconds := (now - t) / 1000 in
      if diffInSeconds <? 60 then pretty diffInSeconds +:+ "s ago"
      else if diffInSeconds <? 3600 then
        let minutes := diffInSeconds / 60 in
        pretty minutes +:+ "m ago"
      else if diffInSeconds <? 86400 then
        let hours := diffInSeconds / 3600 in
        pretty hours +:+ "h ago"
      else
        let days := diffInSeconds / 86400 in
        pretty days +:+ "d ago"
  end.

Definition one_of (s : string) (l : list string) : bool :=
  bool_decide (s ∈ l).

(** The [switch] on [status.toLowerCase()]. *)
Definition getStatusColor (status : string) : string :=
  let s := Str.toLowerCase status in
  if one_of s ["active"; "available"; "connected"; "healthy"] then "text-green-600"
  else if one_of s ["idle"; "pending"] then "text-yellow-600"
  else if one_of s ["error"; "failed"; "disconnected"] then "text-red-600"
  else if one_of s ["maintenance"; "scaling"] then "text-blue-600"
  else "text-gray-600".

End DashboardUtils.

(** ** Further notions about the agent hierarchy *)

Module HierarchyNotions.

Import AgentHierarchy AgentHierarchyNotions.

(** The subordinates that are not idle. *)
Definition working (subs : list Agent) : list Agent :=
  filter (fun a => ~ is_idle a) subs.

(** [{ action: "create_agent", agent_name: { toString: 1 } }] *)
Definition unrenderable_request : option json :=
  Some (JObj (<["action" := JStr "create_agent"]>
             (<["agent_name" := JObj (<["toString" := JNum 1]> ∅)]> ∅))).

(** The statistics that agree with the records: the idle and the busy
    subordinates are counted, and the completed tasks are those of the
    subordinates and the 15 of the boss. *)
Definition stats_agree (h : Hierarchy) : Prop :=
  idle_agents (hierarchy_stats h) = count_status "idle" (subordinate_agents h) /\
  busy_agents (hierarchy_stats h) = count_status "busy" (subordinate_agents h) /\
  total_completed_tasks (hierarchy_stats h)
  = foldl (fun sum a => sum + completed_tasks a) 15 (subordinate_agents h).

(** The busy agent of the mock hierarchy. *)
Definition analysis_agent (boot : Z) : Agent :=
  {| agent_id := 2;
     display_name := "Agent 2";
     agent_name := JStr "Analysis Agent";
     role := "subordinate";
     status := "busy";
     completed_tasks := 12;
     capabilities :=
       ["task_execution"; "problem_solving"; "data_processing";
        "data_analysis"; "pattern_recognition"; "reporting"];
     performance_score := 92 # 100;
     last_active := boot;
     current_task := Some "Analyzing market trends" |}.

End HierarchyNotions.

(** ** Notions about the LLM providers *)

Module LlmProvidersNotions.

Import LlmProviders.

(** The five providers of [mockLLMProviders]. *)
Definition listed : list string :=
  ["openai"; "grok"; "ollama"; "google"; "openrouter"].

(** The store is sound: it has the five providers and no other, the three
    flags of a provider are equal, and the active provider, when there is
    one, is a provider with a key. *)
Definition sound (s : Store) : Prop :=
  (forall n, is_Some (providers s !! n) <-> n ∈ listed) /\
  (forall n p, providers s !! n = Some p ->
     is_active p = has_api_key p /\ is_initialized p = has_api_key p) /\
  (forall a, active_provider s = Some a ->
     exists p, providers s !! a = Some p /\ has_api_key p = true).

(** The provider [n] has a key in the store. *)
Definition keyed (s : Store) (n : string) : Prop :=
  exists p, providers s !! n = Some p /\ has_api_key p = true.

(** The request is a [set_api_key] for [n] with a truthy key. *)
Definition sets_key (body : option json) (n : string) : Prop :=
  exists b,
    body = Some b /\
    AgentHierarchy.is_string (prop b "action") "set_api_key" = true /\
    prop b "provider" = Some (JStr n) /\
    truthy (prop b "api_key") = true.

(** What a request in the model does. *)
Inductive Outcome (s : Store) : Store -> Response -> Prop :=
  | Refused code message :
      code <> 200 ->
      Outcome s s (Answer code false message None)
  | KeySet n :
      n <> "" -> n ∉ inherited ->
      Outcome s (set_api_key n s)
        (Answer 200 true (ApiKeySetFor n) (Some (set_api_key n s)))
  | Switched n p :
      providers s !! n = Some p -> is_initialized p = true ->
      Outcome s {| active_provider := Some n; providers := providers s |}
        (Answer 200 true (SwitchedTo n)
           (Some {| active_provider := Some n; providers := providers s |}))
  | TestedProvider n :
      Outcome s s (Tested 200 true (test_provider n s)).

(** Two requests for a store in use. *)
Definition two_keys : list (option json) :=
  [set_api_key_request "grok" "xai-1"; set_api_key_request "openai" "sk-1"].

End LlmProvidersNotions.

(** ** Notions about sequences of presses *)

Module BossStateNotions.

Import BossStateManager.

(** The states [l] follow one another from [s] along [STATE_ACTIONS]. *)
Fixpoint follows (s : BossState) (l : list BossState) : Prop :=
  match l with
  | [] => True
  | a :: l' => a ∈ STATE_ACTIONS s /\ follows a l'
  end.

(** The history entry that a press records. *)
Definition recorded (p : Z * BossState) : HistoryEntry := mkEntry p.2 p.1 0.

End BossStateNotions.

(** ** Notions about the task board *)

Module TaskBoardNotions.

Import TaskManagement.

(** [{ ...task, status: st, retry_count: rc }] *)
Definition relabelled (st : TaskStatus) (rc : Z) (task : TaskDefinition)
  : TaskDefinition :=
  mkTask (id task) (name task) (description task) st (priority task)
    (created_at task) (assigned_agent_id task) (started_at task)
    (completed_at task) rc (max_retries task) (error_message task).

(** The strings on which [Str.toUpperCase] and [Str.toLowerCase] are the
    methods of JavaScript: those of ASCII characters. *)
Definition ascii_only (s : string) : Prop :=
  Forall (fun c => (nat_of_ascii c < 128)%nat) (String.list_ascii_of_string s).

#[export] Instance ascii_only_dec s : Decision (ascii_only s).
Proof. unfold ascii_only. apply _. Defined.

End TaskBoardNotions.

(** ** Notions about decimal numerals *)

Module TasksLimitNotions.

(** The decimal digits, as [pretty] writes them. *)
Definition is_digit (c : ascii) : Prop :=
  exists d, (d < 10)%N /\ c = pretty_N_char d.

Fixpoint all_digits (s : string) : Prop :=
  match s with
  | String c s' => is_digit c /\ all_digits s'
  | EmptyString => True
  end.

(** The string of the given bytes. *)
Definition utf8 (bytes : list Z) : string :=
  foldr (fun b s => String (of_byte b) s) EmptyString bytes.

(** The white space and the line terminators of JavaScript, each in its
    UTF-8 form: U+0009 to U+000D, U+0020, U+00A0, U+1680, U+2000 to U+200A,
    U+2028, U+2029, U+202F, U+205F, U+3000 and U+FEFF. *)
Definition white_space : list string :=
  utf8 <$>
    [ [9]; [10]; [11]; [12]; [13]; [32]; [194; 160]; [225; 154; 128];
      [226; 128; 128]; [226; 128; 129]; [226; 128; 130]; [226; 128; 131];
      [226; 128; 132]; [226; 128; 133]; [226; 128; 134]; [226; 128; 135];
      [226; 128; 136]; [226; 128; 137]; [226; 128; 138];
      [226; 128; 168]; [226; 128; 169]; [226; 128; 175]; [226; 129; 159];
      [227; 128; 128]; [239; 187; 191] ].

End TasksLimitNotions.

(** * Properties *)

(** Membership in a list that is written out. *)
Ltac in_list := repeat first [apply list_elem_of_here | apply list_elem_of_further].
Ltac not_in_list H :=
  repeat (apply elem_of_cons in H as [H|H]; [discriminate H|]);
  by apply elem_of_nil in H.

(** ** Task submission and retrieval *)

Module TasksApiFacts.

Import TasksApi TasksApiCases.

Section Post.

Variable toISOString : Z -> string.

Lemma newTask_lookup now taskData k :
  newTask toISOString now taskData !! k =
  match own_props taskData !! k with
  | Some v => Some v
  | None => defaults toISOString now !! k
  end.
Proof.
  unfold newTask. rewrite lookup_union.
  destruct (own_props taskData !! k) as [v|], (defaults toISOString now !! k);
    reflexivity.
Qed.

Lemma defaults_lookup now :
  defaults toISOString now !! "id" = Some (JStr ("task-" +:+ pretty now)) /\
  defaults toISOString now !! "created_at" = Some (JStr (toISOString now)) /\
  defaults toISOString now !! "status" = Some (JStr "pending") /\
  defaults toISOString now !! "retry_count" = Some (JNum 0) /\
  defaults toISOString now !! "max_retries" = Some (JNum 3).
Proof. unfold defaults. repeat split; by simplify_map_eq. Qed.

Lemma POST_store now body stored :
  (POST toISOString now body stored).1 = stored.
Proof. by destruct body. Qed.

End Post.

(** C3, as stated, fails: a specification with an empty name, a priority
    that is none of the four and [max_retries = -1] is not rejected; the
    handler answers 201 with a task that carries exactly these fields. *)
Lemma C3_malformed_spec_is_accepted :
  exists task,
    (POST iso0 1755475200000 (Some malformed_spec) []).2 = Created 201 task /\
    task !! "name" = Some (JStr "") /\
    task !! "priority" = Some (JStr "bogus") /\
    task !! "max_retries" = Some (JNum (-1)) /\
    task !! "status" = Some (JStr "pending").
Proof.
  eexists. split; [reflexivity|].
  repeat split; vm_compute; reflexivity.
Qed.

(** C3, amended: [POST /api/tasks] validates nothing.  Every body that parses
    is answered 201 with the task built from it, a body that does not parse
    is answered 500, and in both cases the stored list is left as it was; a
    field that the body does not carry has its default, so that a body
    without [id], [created_at] and [status] yields the id [task-<now>], the
    creation time [now] and the status ['pending']. *)
Theorem C3_post_validates_nothing (toISOString : Z -> string) (now : Z)
    (stored : list TaskType) :
  (forall taskData,
     POST toISOString now (Some taskData) stored
     = (stored, Created 201 (newTask toISOString now taskData))) /\
  POST toISOString now None stored = (stored, Failed 500 "Failed to create task") /\
  (forall taskData,
     own_props taskData !! "id" = None ->
     own_props taskData !! "created_at" = None ->
     own_props taskData !! "status" = None ->
     newTask toISOString now taskData !! "id" = Some (JStr ("task-" +:+ pretty now)) /\
     newTask toISOString now taskData !! "created_at" = Some (JStr (toISOString now)) /\
     newTask toISOString now taskData !! "status" = Some (JStr "pending")).
Proof.
  split; [reflexivity|]. split; [reflexivity|].
  intros taskData Hid Hcreated Hstatus.
  rewrite !newTask_lookup, Hid, Hcreated, Hstatus.
  destruct (defaults_lookup toISOString now) as (? & ? & ? & _). done.
Qed.

(** On a string of ASCII characters the code units are the characters. *)
Lemma code_points_ascii s :
  TaskBoardNotions.ascii_only s ->
  code_points s = (fun c => String c EmptyString) <$> String.list_ascii_of_string s.
Proof.
  unfold TaskBoardNotions.ascii_only.
  induction s as [|c s IH]; intros Hs; [done|].
  simpl in Hs. apply Forall_cons in Hs as [_ Hs].
  cbn [code_points]. rewrite (IH Hs).
  destruct s as [|c' s']; [done|].
  simpl in Hs. apply Forall_cons in Hs as [Hc' _].
  assert (Hnot : is_continuation c' = false).
  { unfold is_continuation, byte.
    destruct (Z.leb_spec 128 (Z.of_nat (nat_of_ascii c'))); [lia|done]. }
  by rewrite Hnot.
Qed.

Lemma chars_ascii s :
  TaskBoardNotions.ascii_only s ->
  chars s = (fun c => JStr (String c EmptyString)) <$> String.list_ascii_of_string s.
Proof.
  intros Hs. unfold chars. rewrite (code_points_ascii s Hs).
  induction (String.list_ascii_of_string s) as [|c l IH]; [done|].
  rewrite !fmap_cons. cbn [concat code_units app]. rewrite fmap_cons.
  f_equal. exact IH.
Qed.

(** Beyond ASCII: in "a", e with acute accent (two bytes) and U+1F600 (four
    bytes) the accented letter is one code unit and the last character is
    two, its surrogates U+D83D and U+DE00. *)
Lemma chars_beyond_ascii :
  chars (TasksLimitNotions.utf8 [97; 195; 169; 240; 159; 152; 128])
  = [ JStr "a"; JStr (TasksLimitNotions.utf8 [195; 169]);
      JStr (TasksLimitNotions.utf8 [237; 160; 189]);
      JStr (TasksLimitNotions.utf8 [237; 184; 128]) ].
Proof. vm_compute. reflexivity. Qed.

Lemma indexed_lookup (l : list json) (i : nat) :
  (list_to_map (indexed l) : gmap string json) !! pretty i = l !! i.
Proof.
  unfold indexed.
  assert (Hkeys : NoDup (imap (fun i v => (pretty i, v)) l).*1).
  { rewrite fmap_imap. simpl. apply NoDup_alt. intros a b k.
    rewrite !list_lookup_imap.
    destruct (l !! a) eqn:Ha, (l !! b) eqn:Hb; simpl; try done.
    intros [= <-] [= Heq]. by apply (inj pretty) in Heq. }
  destruct (l !! i) as [v|] eqn:Hi.
  - apply elem_of_list_to_map; [done|].
    apply list_elem_of_lookup. exists i.
    by rewrite list_lookup_imap, Hi.
  - apply not_elem_of_list_to_map. intros Hin.
    apply list_elem_of_fmap in Hin as ([k v] & Hk & Hin). simpl in Hk.
    apply list_elem_of_lookup in Hin as [a Ha].
    rewrite list_lookup_imap in Ha.
    destruct (l !! a) eqn:Hla; [|done]. simpl in Ha. injection Ha as Heq <-.
    rewrite <- Hk in Heq. apply (inj pretty) in Heq. congruence.
Qed.

(** C10: the created task is the default record overridden by the request
    body.  The task answered for a body that is an object has, at every
    key, the member of the body when the body has one there, and the
    default otherwise; for a body that is an array or a string the same
    holds of its elements and code units at their indices, and for a body
    that is a number or a boolean the task is the default record.  So a
    member of the body always wins, a default is used exactly for the
    members the body lacks, and there is a body for which the status is not
    ['pending'] and the id, [retry_count] and [max_retries] all differ from
    their defaults. *)
Theorem C10_body_overrides_defaults (toISOString : Z -> string) (now : Z) :
  (forall taskData stored,
     (POST toISOString now (Some taskData) stored).2
     = Created 201 (own_props taskData ∪ defaults toISOString now)) /\
  (defaults toISOString now !! "id" = Some (JStr ("task-" +:+ pretty now)) /\
   defaults toISOString now !! "created_at" = Some (JStr (toISOString now)) /\
   defaults toISOString now !! "status" = Some (JStr "pending") /\
   defaults toISOString now !! "retry_count" = Some (JNum 0) /\
   defaults toISOString now !! "max_retries" = Some (JNum 3)) /\
  (forall taskData k,
     newTask toISOString now taskData !! k =
     match own_props taskData !! k with
     | Some v => Some v
     | None => defaults toISOString now !! k
     end) /\
  (exists taskData,
     let task := newTask toISOString now taskData in
     task !! "status" <> Some (JStr "pending") /\
     task !! "id" <> defaults toISOString now !! "id" /\
     task !! "retry_count" <> defaults toISOString now !! "retry_count" /\
     task !! "max_retries" <> defaults toISOString now !! "max_retries") /\
  (forall (fields : gmap string json) stored,
     exists task,
       (POST toISOString now (Some (JObj fields)) stored).2 = Created 201 task /\
       (forall k v, fields !! k = Some v -> task !! k = Some v) /\
       (forall k, fields !! k = None -> task !! k = defaults toISOString now !! k) /\
       dom task = dom fields ∪ dom (defaults toISOString now)) /\
  (forall (elements : list json) stored,
     exists task,
       (POST toISOString now (Some (JArr elements)) stored).2 = Created 201 task /\
       (forall (i : nat) v, elements !! i = Some v -> task !! pretty i = Some v)) /\
  (forall (text : string) stored,
     exists task,
       (POST toISOString now (Some (JStr text)) stored).2 = Created 201 task /\
       (forall (i : nat) v, chars text !! i = Some v -> task !! pretty i = Some v)) /\
  (forall taskData stored,
     taskData = JNull \/ (exists b, taskData = JBool b) \/ (exists q, taskData = JNum q) ->
     (POST toISOString now (Some taskData) stored).2
     = Created 201 (defaults toISOString now)).
Proof.
  split; [reflexivity|].
  split; [apply defaults_lookup|].
  split; [apply newTask_lookup|].
  split.
  { exists overriding_spec. cbv zeta.
    destruct (defaults_lookup toISOString now) as (Hid & _ & _ & Hrc & Hmr).
    rewrite !newTask_lookup, Hid, Hrc, Hmr.
    repeat split; vm_compute; discriminate. }
  split; [|split; [|split]].
  - intros fields stored. eexists. split; [reflexivity|].
    fold (newTask toISOString now (JObj fields)).
    split; [|split].
    + intros k v Hk. by rewrite newTask_lookup; simpl; rewrite Hk.
    + intros k Hk. by rewrite newTask_lookup; simpl; rewrite Hk.
    + unfold newTask. simpl. by rewrite dom_union_L.
  - intros elements stored. eexists. split; [reflexivity|].
    fold (newTask toISOString now (JArr elements)).
    intros i v Hi. rewrite newTask_lookup. simpl.
    by rewrite indexed_lookup, Hi.
  - intros text stored. eexists. split; [reflexivity|].
    fold (newTask toISOString now (JStr text)).
    intros i v Hi. rewrite newTask_lookup. simpl.
    by rewrite indexed_lookup, Hi.
  - intros taskData stored [->|[[b ->]|[q ->]]]; simpl; unfold newTask; simpl;
      by rewrite (left_id_L ∅ (∪)).
Qed.

(** C8, as stated, fails: with the tasks stored in the order LOW, URGENT,
    MEDIUM, asking for one pending task returns the LOW one, and asking for
    all of them returns them in the stored order. *)
Lemma C8_first_retrieved_is_first_stored :
  GET [low_task; urgent_task; medium_task] (Some "PENDING") (Some "1")
  = Listed 200 [low_task] /\
  GET [low_task; urgent_task; medium_task] (Some "PENDING") None
  = Listed 200 [low_task; urgent_task; medium_task].
Proof. split; vm_compute; reflexivity. Qed.

Lemma slice0_prefix {A} (l : list A) n : slice0 l n `prefix_of` l.
Proof. unfold slice0. apply prefix_take. Qed.

Lemma slice0_sublist {A} (l : list A) n : slice0 l n `sublist_of` l.
Proof. unfold slice0. apply sublist_take. Qed.

Lemma slice0_nonneg {A} (l : list A) n :
  0 <= n -> slice0 l n = take (Z.to_nat n) l.
Proof.
  intros Hn. unfold slice0.
  destruct (Z.ltb_spec n 0) as [?|_]; [lia|].
  destruct (Z.le_ge_cases n (Z.of_nat (length l))) as [Hle|Hge].
  - by rewrite Z.min_l.
  - rewrite Z.min_r, Nat2Z.id by done.
    rewrite !take_ge; [done|lia|lia].
Qed.

(** C8, amended: retrieval keeps the stored order and never looks at the
    priority.  [GET] answers 200 with an initial segment of the stored tasks
    that have the requested status (all stored tasks when no status is
    asked for), in the order in which they are stored; without a [limit]
    the segment is the first 100 of them.  For tasks stored as LOW, URGENT,
    MEDIUM it returns LOW first, then URGENT, then MEDIUM. *)
Theorem C8_get_keeps_stored_order (stored : list TaskType)
    (status limit : option string) :
  (exists out,
     GET stored status limit = Listed 200 out /\
     out `prefix_of` with_status status stored /\
     out `sublist_of` stored) /\
  GET stored status None = Listed 200 (take 100 (with_status status stored)) /\
  GET [low_task; urgent_task; medium_task] (Some "PENDING") None
  = Listed 200 [low_task; urgent_task; medium_task].
Proof.
  assert (Hsub : with_status status stored `sublist_of` stored).
  { unfold with_status. destruct status as [st|]; [|done].
    destruct (String.eqb st ""); [done|]. apply sublist_filter. }
  split; [|split].
  - unfold GET. fold (with_status status stored).
    destruct (parseInt (or_else limit "100")) as [n|].
    + destruct (n =? 0).
      * eexists. split; [reflexivity|]. split; [done|exact Hsub].
      * eexists. split; [reflexivity|]. split; [apply slice0_prefix|].
        etrans; [|exact Hsub]. apply slice0_sublist.
    + eexists. split; [reflexivity|]. split; [done|exact Hsub].
  - unfold GET. fold (with_status status stored).
    change (parseInt (or_else None "100")) with (Some 100). cbn match.
    f_equal. apply slice0_nonneg. lia.
  - vm_compute. reflexivity.
Qed.

End TasksApiFacts.

(** ** The boss state *)

Module BossStateFacts.

Import BossStateManager BossStateCases.

Lemma of_value_value s : of_value (value s) = Some s.
Proof. by destruct s. Qed.

Lemma value_in_values s : value s ∈ values.
Proof. unfold values. apply list_elem_of_fmap_2. destruct s; in_list. Qed.

(** C1, as stated, fails: on a stopped machine, for which the table permits
    no successor, [handleStateChange] installs EXECUTING and reports the
    change as done, and the route answers success for the same request. *)
Lemma C1_stopped_machine_is_set_to_executing :
  possibleActions stopped = [] /\
  boss_state (handleStateChange 1755475260000 EXECUTING stopped) = "executing" /\
  toasts (handleStateChange 1755475260000 EXECUTING stopped)
  = [mkToast false "State Changed" "Boss state changed to EXECUTING"] /\
  POST (state_request "executing") "stop" = ("stop", Success 200).
Proof. repeat split; vm_compute; reflexivity. Qed.

Lemma click_Some now action ui ui' :
  click now action ui = Some ui' ->
  action ∈ possibleActions ui /\ isLoading ui = false /\
  ui' = handleStateChange now action ui.
Proof.
  unfold click. intros H.
  destruct (bool_decide (action ∈ possibleActions ui)) eqn:Hin; [|done].
  destruct (isLoading ui); [done|]. simpl in H.
  apply bool_decide_eq_true in Hin. by inversion H.
Qed.

(** C1, amended: the guard is in what the dashboard offers, not in the
    entry points.  A change requested through a rendered and enabled button
    installs a state that [STATE_ACTIONS] lists for the current state, and
    the change is appended to the state history.  [handleStateChange] itself
    installs whatever state it is called with, records it, and reports
    "State Changed"; the route answers success for every state name whatever
    the current state is, refuses what is not a state name, and never
    changes the state. *)
Theorem C1_only_offered_changes_follow_the_table (now : Z) (action : BossState)
    (ui : UI) :
  (forall ui',
     click now action ui = Some ui' ->
     (exists current,
        of_value (boss_state ui) = Some current /\
        action ∈ STATE_ACTIONS current) /\
     boss_state ui' = value action /\
     stateHistory ui' = stateHistory ui ++ [mkEntry action now 0]) /\
  (boss_state (handleStateChange now action ui) = value action /\
   stateHistory (handleStateChange now action ui)
   = stateHistory ui ++ [mkEntry action now 0] /\
   toasts (handleStateChange now action ui)
   = toasts ui ++ [mkToast false "State Changed"
                     ("Boss state changed to " +:+ Str.toUpperCase (value action))]) /\
  (forall current,
     POST (state_request (value action)) current = (current, Success 200)) /\
  (forall v current,
     v ∉ values ->
     POST (state_request v) current = (current, Error 400 "Invalid boss state")) /\
  (forall body current, (POST body current).1 = current).
Proof.
  split; [|split; [|split; [|split]]].
  - intros ui' Hclick.
    apply click_Some in Hclick as (Hin & _ & ->).
    split; [|done].
    unfold possibleActions in Hin.
    destruct (of_value (boss_state ui)) as [current|]; [eauto|].
    by apply elem_of_nil in Hin.
  - done.
  - intros current. unfold POST, state_request, prop.
    rewrite lookup_insert_eq.
    by rewrite (bool_decide_eq_true_2 _ (value_in_values action)).
  - intros v current Hv. unfold POST, state_request, prop.
    rewrite lookup_insert_eq.
    by rewrite (bool_decide_eq_false_2 _ Hv).
  - intros body current. unfold POST.
    destruct body as [[]|]; try done.
    all: destruct (prop _ "state") as [[]|]; try done.
    all: by case_bool_decide.
Qed.

(** The theorem of C1 on an idle machine: AWAKE is offered and pressed. *)
Lemma C1_witness :
  click 1755475260000 AWAKE (initial "idle" 1755475200000)
  = Some (handleStateChange 1755475260000 AWAKE (initial "idle" 1755475200000)) /\
  exists current,
    of_value "idle" = Some current /\ AWAKE ∈ STATE_ACTIONS current.
Proof.
  split; [reflexivity|].
  destruct (C1_only_offered_changes_follow_the_table
              1755475260000 AWAKE (initial "idle" 1755475200000))
    as [Hclick _].
  destruct (Hclick _ eq_refl) as [Hpermitted _].
  exact Hpermitted.
Defined.

(** C2, as stated, fails: EXECUTING is not terminal, and STOP is not among
    its successors. *)
Lemma C2_no_stop_from_executing :
  EXECUTING <> STOP /\ STOP ∉ STATE_ACTIONS EXECUTING.
Proof. split; [done|]. simpl. intros H. not_in_list H. Qed.

(** C2, amended: STOP is a successor of IDLE and of AWAKE and of no other
    state, no transition leaves STOP, and the recorded history of the
    machine starts in IDLE (the state it shows first is the one that
    [mockSystemOverview] gives). *)
Theorem C2_stop_only_from_idle_and_awake :
  (forall s, STOP ∈ STATE_ACTIONS s <-> s = IDLE \/ s = AWAKE) /\
  STATE_ACTIONS STOP = [] /\
  (forall mock_boss_state now,
     state <$> head (stateHistory (initial mock_boss_state now)) = Some IDLE /\
     boss_state (initial mock_boss_state now) = mock_boss_state).
Proof.
  split; [|done].
  intros s. split.
  - destruct s; simpl; intros H; auto; not_in_list H.
  - intros [->| ->]; simpl; in_list.
Qed.

End BossStateFacts.

(** ** Retrying and cancelling tasks *)

Module TaskManagementFacts.

Import TaskManagement TaskManagementCases.

Lemma handleTaskAction_tasks taskId action ui :
  tasks (handleTaskAction taskId action ui)
  = updater action taskId <$> tasks ui.
Proof. by destruct action. Qed.

Lemma updater_id action taskId task : id (updater action taskId task) = id task.
Proof.
  destruct action; simpl; unfold retried, cancelled;
    by destruct (String.eqb (id task) taskId).
Qed.

Lemma updater_other action taskId task :
  id task <> taskId -> updater action taskId task = task.
Proof.
  intros Hne. apply String.eqb_neq in Hne.
  destruct action; simpl; unfold retried, cancelled; by rewrite Hne.
Qed.

Lemma updater_ids action taskId (l : list TaskDefinition) :
  id <$> (updater action taskId <$> l) = id <$> l.
Proof.
  rewrite <- list_fmap_compose. apply list_fmap_ext.
  intros _ task _. apply updater_id.
Qed.

Lemma filteredTasks_subset ui task : task ∈ filteredTasks ui -> task ∈ tasks ui.
Proof.
  unfold filteredTasks. intros H.
  destruct (negb (String.eqb (searchQuery ui) "")).
  - apply list_elem_of_In, List.filter_In in H as [H _].
    destruct (negb (String.eqb (selectedStatus ui) "all")).
    + by apply List.filter_In in H as [H%list_elem_of_In _].
    + by apply list_elem_of_In.
  - destruct (negb (String.eqb (selectedStatus ui) "all")); [|done].
    by apply list_elem_of_In, List.filter_In in H as [H%list_elem_of_In _].
Qed.

(** With distinct ids, the task stored at a position is the only one with
    its id. *)
Lemma unique_by_id (l : list TaskDefinition) i task other :
  NoDup (id <$> l) -> l !! i = Some task -> other ∈ l ->
  id other = id task -> other = task.
Proof.
  intros Hnd Hi [j Hj]%list_elem_of_lookup_1 Hid.
  assert (i = j) as ->.
  { apply (NoDup_lookup (id <$> l) i j (id task)); [done| |].
    - by rewrite list_lookup_fmap, Hi.
    - by rewrite list_lookup_fmap, Hj, <- Hid. }
  congruence.
Qed.

(** What one event does to the tasks: nothing, or the update of an action
    that was offered for a stored task. *)
Lemma step_tasks e ui ui' :
  step e ui = Some ui' ->
  tasks ui' = tasks ui \/
  exists task action,
    task ∈ tasks ui /\ offered action task = true /\
    tasks ui' = updater action (id task) <$> tasks ui.
Proof.
  destruct e as [task action|s|q]; simpl.
  - destruct (bool_decide (task ∈ filteredTasks ui)) eqn:Hin; [|done].
    destruct (offered action task) eqn:Hoff; [|done].
    destruct (isLoading ui); [done|]. simpl.
    intros [= <-]. right. exists task, action.
    apply bool_decide_eq_true in Hin.
    split; [by apply filteredTasks_subset|]. split; [done|].
    apply handleTaskAction_tasks.
  - intros [= <-]. by left.
  - intros [= <-]. by left.
Qed.

Lemma step_ids e ui ui' :
  step e ui = Some ui' -> id <$> tasks ui' = id <$> tasks ui.
Proof.
  intros [->|(task & action & _ & _ & ->)]%step_tasks; [done|].
  apply updater_ids.
Qed.

(** A task for which no action is offered is untouched by an event. *)
Lemma step_keeps_unoffered e ui ui' i task :
  NoDup (id <$> tasks ui) ->
  step e ui = Some ui' ->
  tasks ui !! i = Some task ->
  (forall action, offered action task = false) ->
  tasks ui' !! i = Some task.
Proof.
  intros Hnd Hstep Hi Hnone.
  apply step_tasks in Hstep as [->|(other & action & Hin & Hoff & ->)]; [done|].
  rewrite list_lookup_fmap, Hi. simpl. f_equal.
  apply updater_other. intros Hid.
  assert (task = other) as -> by (symmetry; by eapply unique_by_id).
  by rewrite Hnone in Hoff.
Qed.

Lemma run_keeps_unoffered es ui ui' i task :
  NoDup (id <$> tasks ui) ->
  run es ui = Some ui' ->
  tasks ui !! i = Some task ->
  (forall action, offered action task = false) ->
  tasks ui' !! i = Some task.
Proof.
  revert ui. induction es as [|e es IH]; intros ui Hnd Hrun Hi Hnone.
  - simpl in Hrun. by simplify_eq.
  - simpl in Hrun. destruct (step e ui) as [ui1|] eqn:Hstep; [|done].
    apply (IH ui1); [|done| |done].
    + by rewrite (step_ids _ _ _ Hstep).
    + by eapply step_keeps_unoffered.
Qed.

(** Events keep [retry_count] within [max_retries]. *)
Lemma step_retry_bound e ui ui' :
  NoDup (id <$> tasks ui) ->
  step e ui = Some ui' ->
  (forall task, task ∈ tasks ui -> retry_count task <= max_retries task) ->
  forall task, task ∈ tasks ui' -> retry_count task <= max_retries task.
Proof.
  intros Hnd Hstep Hbound task' Hin'.
  apply step_tasks in Hstep as [Heq|(pressed & action & Hin & Hoff & Heq)];
    rewrite Heq in Hin'; [by apply Hbound|].
  apply list_elem_of_fmap in Hin' as (task & -> & Htask).
  destruct (decide (id task = id pressed)) as [Hid|Hid].
  - apply list_elem_of_lookup_1 in Htask as [i Hi].
    assert (pressed = task) as -> by (by apply (unique_by_id (tasks ui) i)).
    specialize (Hbound task (list_elem_of_lookup_2 _ _ _ Hi)).
    destruct action; simpl in *.
    + unfold retried. rewrite String.eqb_refl. simpl.
      unfold retry_offered in Hoff. apply andb_true_iff in Hoff as [_ Hlt].
      apply Z.ltb_lt in Hlt. lia.
    + unfold cancelled. by rewrite String.eqb_refl.
  - rewrite updater_other by done. by apply Hbound.
Qed.

Lemma run_retry_bound es ui ui' :
  NoDup (id <$> tasks ui) ->
  run es ui = Some ui' ->
  (forall task, task ∈ tasks ui -> retry_count task <= max_retries task) ->
  forall task, task ∈ tasks ui' -> retry_count task <= max_retries task.
Proof.
  revert ui. induction es as [|e es IH]; intros ui Hnd Hrun Hbound.
  - simpl in Hrun. by simplify_eq.
  - simpl in Hrun. destruct (step e ui) as [ui1|] eqn:Hstep; [|done].
    apply (IH ui1); [|done|].
    + by rewrite (step_ids _ _ _ Hstep).
    + by eapply step_retry_bound.
Qed.

(** C4: for a FAILED task with retries left the retry is offered, and
    applying it sets exactly that task back to PENDING with [retry_count]
    one higher, every task with another id (with distinct ids: every task at
    another position) staying as it was.  For a FAILED task whose
    [retry_count] has reached [max_retries] neither retry nor cancel is
    offered, so that, ids being distinct, it stays as it is, FAILED and with
    the same [retry_count], whatever the user does.  Events keep
    [retry_count] within [max_retries], so that a task that is FAILED with
    no retry left has [retry_count] equal to [max_retries]. *)
Theorem C4_retry_requeues_and_exhausted_stays_failed (ui : UI) :
  (forall i task,
     tasks ui !! i = Some task ->
     status task = FAILED ->
     retry_count task < max_retries task ->
     let ui' := handleTaskAction (id task) retry ui in
     retry_offered task = true /\
     tasks ui' !! i
     = Some (mkTask (id task) (name task) (description task) PENDING
               (priority task) (created_at task) (assigned_agent_id task)
               (started_at task) (completed_at task) (retry_count task + 1)
               (max_retries task) (error_message task)) /\
     (forall j other,
        tasks ui !! j = Some other -> id other <> id task ->
        tasks ui' !! j = Some other) /\
     (NoDup (id <$> tasks ui) ->
      forall j, j <> i -> tasks ui' !! j = tasks ui !! j)) /\
  (forall i task,
     tasks ui !! i = Some task ->
     status task = FAILED ->
     max_retries task <= retry_count task ->
     retry_offered task = false /\
     cancel_offered task = false /\
     (NoDup (id <$> tasks ui) ->
      forall es ui', run es ui = Some ui' -> tasks ui' !! i = Some task)) /\
  (NoDup (id <$> tasks ui) ->
   (forall task, task ∈ tasks ui -> retry_count task <= max_retries task) ->
   forall es ui' task,
     run es ui = Some ui' ->
     task ∈ tasks ui' ->
     retry_count task <= max_retries task /\
     (status task = FAILED -> retry_offered task = false ->
      retry_count task = max_retries task)).
Proof.
  split; [|split].
  - intros i task Hi Hfailed Hlt ui'. subst ui'.
    rewrite handleTaskAction_tasks. simpl.
    split; [|split; [|split]].
    + unfold retry_offered. rewrite Hfailed. simpl. by apply Z.ltb_lt.
    + rewrite list_lookup_fmap, Hi. simpl. unfold retried.
      by rewrite String.eqb_refl.
    + intros j other Hj Hne.
      rewrite list_lookup_fmap, Hj. simpl. f_equal.
      by apply (updater_other retry).
    + intros Hnd j Hji.
      rewrite list_lookup_fmap.
      destruct (tasks ui !! j) as [other|] eqn:Hj; [|done].
      simpl. f_equal. apply (updater_other retry). intros Hid.
      apply Hji. apply (NoDup_lookup (id <$> tasks ui) j i (id task)); [done| |].
      * by rewrite list_lookup_fmap, Hj, <- Hid.
      * by rewrite list_lookup_fmap, Hi.
  - intros i task Hi Hfailed Hge.
    assert (Hretry : retry_offered task = false).
    { unfold retry_offered. rewrite Hfailed. simpl. by apply Z.ltb_ge. }
    assert (Hcancel : cancel_offered task = false).
    { unfold cancel_offered. by rewrite Hfailed. }
    split; [done|]. split; [done|].
    intros Hnd es ui' Hrun.
    eapply run_keeps_unoffered; [done..|]. by intros [].
  - intros Hnd Hbound es ui' task Hrun Hin.
    pose proof (run_retry_bound es ui ui' Hnd Hrun Hbound task Hin) as Hle.
    split; [done|]. intros Hfailed Hnone.
    unfold retry_offered in Hnone. rewrite Hfailed in Hnone. simpl in Hnone.
    apply Z.ltb_ge in Hnone. lia.
Qed.

Lemma board_ids_distinct : NoDup (id <$> tasks board).
Proof. apply (bool_decide_unpack _). vm_compute. exact I. Defined.

(** The theorem of C4 on the board: the task that failed once is set back
    to PENDING with two retries counted, and the exhausted task stays as it
    is through every sequence of events. *)
Lemma C4_witness :
  (tasks (handleTaskAction "task_1" retry board) !! 0%nat
   = Some (sample "task_1" PENDING 2 3) /\
   tasks (handleTaskAction "task_1" retry board) !! 1%nat = Some exhausted) /\
  (forall es ui', run es board = Some ui' -> tasks ui' !! 1%nat = Some exhausted).
Proof.
  destruct (C4_retry_requeues_and_exhausted_stays_failed board)
    as (Hretry & Hstays & _).
  split.
  - destruct (Hretry 0%nat failed_once eq_refl eq_refl ltac:(simpl; lia))
      as (_ & Hset & _ & Hothers).
    split; [exact Hset|]. apply (Hothers board_ids_distinct). lia.
  - intros es ui' Hrun.
    destruct (Hstays 1%nat exhausted eq_refl eq_refl ltac:(simpl; lia))
      as (_ & _ & Hkept).
    apply (Hkept board_ids_distinct es ui' Hrun).
Defined.

Lemma run_ids es ui ui' :
  run es ui = Some ui' -> id <$> tasks ui' = id <$> tasks ui.
Proof.
  revert ui. induction es as [|e es IH]; intros ui Hrun; simpl in Hrun.
  - by simplify_eq.
  - destruct (step e ui) as [ui1|] eqn:Hstep; [|done].
    rewrite (IH ui1 Hrun). by eapply step_ids.
Qed.

Lemma cancel_offered_iff task :
  cancel_offered task = true <-> status task = PENDING \/ status task = RUNNING.
Proof.
  unfold cancel_offered. destruct (status task); simpl; split;
    intros H; try done; try (by left); try (by right); by destruct H.
Qed.

(** What an event does to the status of the task at a position of a board
    with distinct ids: a task that is CANCELLED afterwards was CANCELLED
    before, or was PENDING or RUNNING. *)
Lemma step_cancelled e ui ui' i task :
  NoDup (id <$> tasks ui) ->
  step e ui = Some ui' ->
  tasks ui !! i = Some task ->
  exists task',
    tasks ui' !! i = Some task' /\
    (status task' = CANCELLED ->
     status task = CANCELLED \/ status task = PENDING \/ status task = RUNNING).
Proof.
  intros Hnd Hstep Hi.
  apply step_tasks in Hstep as [->|(pressed & action & Hin & Hoff & ->)].
  { exists task. split; [done|]. by left. }
  rewrite list_lookup_fmap, Hi. simpl. eexists. split; [done|].
  intros Hcancelled.
  destruct (decide (id task = id pressed)) as [Hid|Hid].
  - assert (pressed = task) as ->.
    { by apply (unique_by_id (tasks ui) i). }
    destruct action; simpl in Hoff, Hcancelled.
    + unfold retried in Hcancelled. by rewrite String.eqb_refl in Hcancelled.
    + right. by apply cancel_offered_iff.
  - rewrite updater_other in Hcancelled by done. by left.
Qed.

(** C5: through the dashboard a task reaches CANCELLED only from PENDING or
    from RUNNING.  Cancel is offered exactly for PENDING and RUNNING tasks.
    On a board with distinct ids, in every state that events lead to: for a
    task that is COMPLETED, FAILED or CANCELLED a press on Cancel is no
    event, its button not being rendered; no event turns a COMPLETED or a
    FAILED task into a CANCELLED one, a task that is CANCELLED after an
    event having been CANCELLED before it, or PENDING or RUNNING; and a
    press on Cancel for a listed PENDING or RUNNING task, when no action is
    under way, does set that task to CANCELLED. *)
Theorem C5_cancelled_only_from_pending_or_running (ui : UI) :
  NoDup (id <$> tasks ui) ->
  (forall task,
     cancel_offered task = true <-> status task = PENDING \/ status task = RUNNING) /\
  (forall es ui1,
     run es ui = Some ui1 ->
     (forall task,
        status task = COMPLETED \/ status task = FAILED \/ status task = CANCELLED ->
        cancel_offered task = false /\ step (Press task cancel) ui1 = None) /\
     (forall e ui2 i task,
        step e ui1 = Some ui2 ->
        tasks ui1 !! i = Some task ->
        exists task',
          tasks ui2 !! i = Some task' /\
          (status task' = CANCELLED ->
           status task = CANCELLED \/ status task = PENDING \/ status task = RUNNING) /\
          (status task = COMPLETED \/ status task = FAILED ->
           status task' <> CANCELLED)) /\
     (forall i task,
        tasks ui1 !! i = Some task ->
        task ∈ filteredTasks ui1 ->
        isLoading ui1 = false ->
        status task = PENDING \/ status task = RUNNING ->
        exists ui2,
          step (Press task cancel) ui1 = Some ui2 /\
          status <$> tasks ui2 !! i = Some CANCELLED)).
Proof.
  intros Hnd. split; [apply cancel_offered_iff|].
  intros es ui1 Hrun.
  assert (Hnd1 : NoDup (id <$> tasks ui1)) by (by rewrite (run_ids es ui ui1 Hrun)).
  split; [|split].
  - intros task Hst.
    assert (Hoff : cancel_offered task = false).
    { unfold cancel_offered. by destruct Hst as [->|[->| ->]]. }
    split; [done|]. simpl. rewrite Hoff.
    by destruct (bool_decide (task ∈ filteredTasks ui1)).
  - intros e ui2 i task Hstep Hi.
    destruct (step_cancelled e ui1 ui2 i task Hnd1 Hstep Hi) as (task' & Hi' & Hfrom).
    exists task'. split; [done|]. split; [done|].
    intros Hst Hcancelled.
    destruct (Hfrom Hcancelled) as [H|[H|H]]; rewrite H in Hst;
      by destruct Hst.
  - intros i task Hi Hin Hidle Hst.
    eexists. split.
    + simpl. rewrite bool_decide_eq_true_2 by done.
      rewrite (proj2 (cancel_offered_iff task) Hst), Hidle. reflexivity.
    + rewrite handleTaskAction_tasks, list_lookup_fmap, Hi. simpl.
      unfold cancelled. by rewrite String.eqb_refl.
Qed.

(** The theorem of C5 on the board: after the status filter is set to
    "running", cancel is pressed on the running task, and no press on
    Cancel is possible for the completed one. *)
Lemma C5_witness :
  run [SelectStatus "running"] board = Some (setSelectedStatus "running" board) /\
  step (Press finished cancel) (setSelectedStatus "running" board) = None /\
  exists ui2,
    step (Press in_flight cancel) (setSelectedStatus "running" board) = Some ui2 /\
    status <$> tasks ui2 !! 2%nat = Some CANCELLED.
Proof.
  split; [reflexivity|].
  destruct (C5_cancelled_only_from_pending_or_running board board_ids_distinct)
    as (_ & Hevents).
  destruct (Hevents [SelectStatus "running"] _ eq_refl)
    as (Hnone & _ & Hcancel).
  split.
  - apply (Hnone finished). by left.
  - apply (Hcancel 2%nat in_flight); [reflexivity| |reflexivity|by right].
    apply (bool_decide_unpack _). vm_compute. exact I.
Defined.

End TaskManagementFacts.

(** ** Lists and loops *)

Module ListFacts.

Section Lists.

Context {A : Type}.

(** Two filters agree on a list when their predicates agree on its
    members. *)
Lemma filter_agree (P1 P2 : A -> Prop)
    `{!forall x, Decision (P1 x), !forall x, Decision (P2 x)} (l : list A) :
  (forall x, x ∈ l -> (P1 x <-> P2 x)) -> filter P1 l = filter P2 l.
Proof.
  induction l as [|a l IH]; intros Hiff; [done|].
  rewrite !filter_cons.
  rewrite IH by (intros x Hx; apply Hiff; by right).
  destruct (Hiff a ltac:(by left)) as [H12 H21].
  destruct (decide (P1 a)), (decide (P2 a)); try done; tauto.
Qed.

Lemma filter_all (P : A -> Prop) `{!forall x, Decision (P x)} (l : list A) :
  (forall x, x ∈ l -> P x) -> filter P l = l.
Proof.
  induction l as [|a l IH]; intros Hall; [done|].
  rewrite filter_cons_True by (apply Hall; by left).
  f_equal. apply IH. intros x Hx. apply Hall. by right.
Qed.

Lemma filter_none (P : A -> Prop) `{!forall x, Decision (P x)} (l : list A) :
  (forall x, x ∈ l -> ~ P x) -> filter P l = [].
Proof.
  induction l as [|a l IH]; intros Hnone; [done|].
  rewrite filter_cons_False by (apply Hnone; by left).
  apply IH. intros x Hx. apply Hnone. by right.
Qed.

Lemma StronglySorted_sublist (R : A -> A -> Prop) (l k : list A) :
  l `sublist_of` k -> StronglySorted R k -> StronglySorted R l.
Proof.
  induction 1 as [|x l k Hsub IH|x l k Hsub IH]; intros Hk.
  - constructor.
  - apply StronglySorted_cons in Hk as [Hx Hk].
    apply StronglySorted_cons. split; [|by apply IH].
    rewrite Forall_forall in Hx |- *.
    intros y Hy. apply Hx. by eapply elem_of_sublist.
  - apply StronglySorted_cons in Hk as [_ Hk]. by apply IH.
Qed.

Lemma Forall_sublist (P : A -> Prop) (l k : list A) :
  l `sublist_of` k -> Forall P k -> Forall P l.
Proof.
  rewrite !Forall_forall. intros Hsub Hk x Hx.
  apply Hk. by eapply elem_of_sublist.
Qed.

(** With distinct keys, two members of a list with the same key are the
    same member. *)
Lemma same_key {K : Type} (key : A -> K) (l : list A) x y :
  NoDup (key <$> l) -> x ∈ l -> y ∈ l -> key x = key y -> x = y.
Proof.
  intros Hnd [i Hi]%list_elem_of_lookup_1 [j Hj]%list_elem_of_lookup_1 Hkey.
  assert (i = j) as ->.
  { apply (NoDup_lookup (key <$> l) i j (key x)); [done| |].
    - by rewrite list_lookup_fmap, Hi.
    - by rewrite list_lookup_fmap, Hj, Hkey. }
  congruence.
Qed.

Lemma NoDup_fmap_sublist {K : Type} (key : A -> K) (l k : list A) :
  l `sublist_of` k -> NoDup (key <$> k) -> NoDup (key <$> l).
Proof.
  intros Hsub Hnd. apply (sublist_NoDup _ (key <$> k)); [exact Hnd|].
  by apply fmap_sublist.
Qed.

End Lists.

Import AgentHierarchy.

(** The loop test [i < bound] holds exactly for the first
    [loop_count bound] values of [i]. *)
Lemma loop_count_spec (bound : Q) (i : nat) :
  (i < loop_count bound)%nat <-> (inject_Z (Z.of_nat i) < bound)%Q.
Proof.
  unfold loop_count. split.
  - intros Hlt.
    apply Qle_lt_trans with (inject_Z (Qceiling bound - 1)).
    + rewrite <- Zle_Qle. lia.
    + apply Qceiling_lt.
  - intros Hlt.
    assert (Z.of_nat i < Qceiling bound); [|lia].
    rewrite Zlt_Qlt.
    eapply Qlt_le_trans; [exact Hlt|apply Qle_ceiling].
Qed.

(** A property that every turn preserves holds after the loop. *)
Lemma for_loop_ind {S : Type} (P : S -> Prop) bound (body : nat -> S -> S) s :
  P s -> (forall i s', P s' -> P (body i s')) -> P (for_loop bound body s).
Proof.
  unfold for_loop. intros Hs Hbody.
  generalize (seq 0 (loop_count bound)). intros l. revert s Hs.
  induction l as [|i l IH]; intros s Hs; [done|].
  simpl. apply IH. by apply Hbody.
Qed.

End ListFacts.

(** ** The agent hierarchy *)

Module AgentHierarchyFacts.

Import AgentHierarchy ListFacts AgentHierarchyNotions.

(** *** What the operations do to the records *)

Lemma recount_subordinates h : subordinate_agents (recount h) = subordinate_agents h.
Proof. done. Qed.

Lemma remove_by_id_sublist n subs : remove_by_id n subs `sublist_of` subs.
Proof.
  unfold remove_by_id.
  destruct (list_find _ subs) as [[i ?]|]; [apply sublist_delete|done].
Qed.

(** With distinct ids, removing by id removes the agent with that id. *)
Lemma remove_by_id_filter n subs :
  NoDup (agent_id <$> subs) ->
  remove_by_id n subs = filter (fun a => agent_id a <> n) subs.
Proof.
  unfold remove_by_id. induction subs as [|a subs IH]; intros Hnd; [done|].
  rewrite fmap_cons in Hnd. apply NoDup_cons in Hnd as [Hfresh Hnd].
  specialize (IH Hnd). cbn [list_find].
  destruct (decide (agent_id a = n)) as [Heq|Hne].
  - simpl. rewrite filter_cons_False by (intros H; by apply H).
    symmetry. apply filter_all. intros x Hx Hid.
    apply Hfresh. rewrite Heq, <- Hid. by apply list_elem_of_fmap_2.
  - rewrite filter_cons_True by done.
    destruct (list_find (fun a0 => agent_id a0 = n) subs) as [[i x]|];
      cbn; by f_equal.
Qed.

(** The loop that removes agents, with distinct ids: it removes the agents
    whose ids are those of the first [k] idle agents. *)
Lemma remove_loop_filter (idleAgents subs : list Agent) (k : nat) :
  NoDup (agent_id <$> subs) ->
  foldl (fun s i => remove_idle_at idleAgents i s) subs (seq 0 k)
  = filter (fun a => agent_id a ∉ agent_id <$> take k idleAgents) subs.
Proof.
  intros Hnd. induction k as [|k IH].
  - simpl. symmetry. apply filter_all. intros x _. apply not_elem_of_nil.
  - rewrite seq_S, foldl_app. simpl. rewrite IH. unfold remove_idle_at.
    destruct (idleAgents !! k) as [a|] eqn:Hk.
    + rewrite remove_by_id_filter.
      2:{ eapply NoDup_fmap_sublist; [apply sublist_filter|exact Hnd]. }
      rewrite list_filter_filter. apply list_filter_iff. intros x.
      rewrite (take_S_r _ _ _ Hk), fmap_app, not_elem_of_app. simpl.
      rewrite list_elem_of_singleton. tauto.
    + apply lookup_ge_None in Hk.
      rewrite !take_ge by lia. done.
Qed.

(** What the removal does, on the records: agents that are not idle stay,
    what goes is among the first [k] idle agents, and an idle agent that
    stays comes after them. *)
Lemma removal_spec (subs : list Agent) (k : nat) :
  NoDup (agent_id <$> subs) ->
  let idleAgents := filter is_idle subs in
  let subs' := filter (fun a => agent_id a ∉ agent_id <$> take k idleAgents) subs in
  filter (fun a => ~ is_idle a) subs' = filter (fun a => ~ is_idle a) subs /\
  (forall a, a ∈ subs -> a ∉ subs' -> a ∈ take k idleAgents) /\
  (forall b, b ∈ subs' -> is_idle b -> b ∈ drop k idleAgents).
Proof.
  intros Hnd idleAgents subs'.
  assert (Hidle : forall x, x ∈ take k idleAgents -> x ∈ subs /\ is_idle x).
  { intros x Hx.
    pose proof (elem_of_sublist _ _ _ Hx (sublist_take idleAgents k)) as Hin.
    apply list_elem_of_filter in Hin. tauto. }
  assert (Hmem : forall a, a ∈ subs ->
            agent_id a ∈ agent_id <$> take k idleAgents -> a ∈ take k idleAgents).
  { intros a Ha (x & Hid & Hx)%list_elem_of_fmap.
    destruct (Hidle x Hx) as [Hxs _].
    by rewrite (same_key agent_id subs a x Hnd Ha Hxs Hid). }
  split; [|split].
  - subst subs'. rewrite list_filter_filter. apply filter_agree.
    intros a Ha. split; [tauto|]. intros Hbusy. split; [done|].
    intros Hin. apply Hbusy. by apply Hidle, Hmem.
  - intros a Ha Hgone. apply Hmem; [done|].
    destruct (decide (agent_id a ∈ agent_id <$> take k idleAgents)); [done|].
    exfalso. apply Hgone. by apply list_elem_of_filter.
  - intros b [Hkeep Hb]%list_elem_of_filter Hidleb.
    assert (Hin : b ∈ idleAgents) by (by apply list_elem_of_filter).
    rewrite <- (take_drop k idleAgents) in Hin.
    apply elem_of_app in Hin as [Hin|Hin]; [|done].
    exfalso. apply Hkeep. by apply list_elem_of_fmap_2.
Qed.

(** *** How a request changes the store *)

Lemma grows_refl now h : grows now h h.
Proof.
  split; [done|]. exists []. rewrite app_nil_r. simpl.
  split; [done|]. split; [constructor|]. split; [done|lia].
Qed.

Lemma grows_step now h h' nm :
  grows now h h' ->
  forall h'',
    boss_agent h'' = boss_agent h' ->
    subordinate_agents h''
    = subordinate_agents h' ++ [newAgent now (next_agent_id h') nm] ->
    next_agent_id h'' = next_agent_id h' + 1 ->
    grows now h h''.
Proof.
  intros (Hboss & news & Hsubs & Hnews & Hids & Hnext) h'' Hboss' Hsubs' Hnext'.
  split; [congruence|].
  exists (news ++ [newAgent now (next_agent_id h') nm]).
  rewrite Hsubs', Hsubs, <- app_assoc. split; [done|].
  split; [|split].
  - apply Forall_app. split; [done|]. by repeat constructor.
  - rewrite fmap_app, length_app, Hids. simpl.
    replace (length news + 1)%nat with (S (length news)) by lia.
    rewrite seqZ_S. by rewrite Hnext.
  - rewrite length_app. simpl. lia.
Qed.

Lemma create_agent_grows now nm h : grows now h (create_agent now nm h).
Proof. by apply (grows_step now h h nm (grows_refl now h)). Qed.

Lemma add_loop_grows now bound h :
  grows now h (for_loop bound (fun _ => add_auto_agent now) h).
Proof.
  apply for_loop_ind; [apply grows_refl|].
  intros _ h' Hgrows. by eapply grows_step.
Qed.

Lemma remove_loop_sublist bound idleAgents subs :
  for_loop bound (remove_idle_at idleAgents) subs `sublist_of` subs.
Proof.
  apply for_loop_ind; [done|].
  intros i subs' Hsub. etrans; [|exact Hsub].
  unfold remove_idle_at. destruct (idleAgents !! i); [|done].
  apply remove_by_id_sublist.
Qed.

Lemma scale_agents_cases now q h :
  grows now h (scale_agents now q h) \/
  (boss_agent (scale_agents now q h) = boss_agent h /\
   next_agent_id (scale_agents now q h) = next_agent_id h /\
   subordinate_agents (scale_agents now q h)
   = for_loop (removal_bound q (subordinate_agents h))
       (remove_idle_at (filter is_idle (subordinate_agents h)))
       (subordinate_agents h)).
Proof.
  unfold scale_agents.
  destruct (Qlt_le_dec _ q) as [Hup|_].
  - left. destruct (add_loop_grows now
      (q - inject_Z (Z.of_nat (length (subordinate_agents h))))%Q h)
      as (Hboss & news & Hsubs & Hrest).
    split; [done|]. by exists news.
  - destruct (Qlt_le_dec q _) as [Hdown|_].
    + right. done.
    + left. destruct (grows_refl now h) as (Hboss & news & Hsubs & Hrest).
      split; [done|]. by exists news.
Qed.

Lemma scale_agents_effect now q h :
  grows now h (scale_agents now q h) \/ shrinks h (scale_agents now q h).
Proof.
  destruct (scale_agents_cases now q h) as [?|(Hboss & Hnext & Hsubs)]; [by left|].
  right. split; [done|]. split; [|done].
  rewrite Hsubs. apply remove_loop_sublist.
Qed.

Lemma POST_cases now body h :
  (POST now body h).1 = h \/
  (exists nm, (POST now body h).1 = create_agent now nm h) \/
  (exists q, (POST now body h).1 = scale_agents now q h).
Proof.
  unfold POST.
  destruct body as [b|]; [|by left].
  destruct b; try (by left);
    (destruct (is_string _ "create_agent");
     [ destruct (prop _ "agent_name") as [nm|]; [|by left];
       destruct (truthy (Some nm)); [|by left];
       right; left; exists nm; by destruct (renders nm)
     | destruct (is_string _ "scale_agents"); [|by left];
       destruct (prop _ "target_count") as [[]|]; try (by left);
       right; right; by eexists ]).
Qed.

Lemma POST_scale now q h :
  (POST now (scale_request q) h).1 = scale_agents now q h.
Proof. done. Qed.

Lemma POST_effect now body h :
  grows now h (POST now body h).1 \/ shrinks h (POST now body h).1.
Proof.
  destruct (POST_cases now body h) as [->|[[nm ->]|[q ->]]].
  - left. apply grows_refl.
  - left. apply create_agent_grows.
  - apply scale_agents_effect.
Qed.

(** *** Invariants of the store *)

Lemma ids_ok_grows now h h' : ids_ok h -> grows now h h' -> ids_ok h'.
Proof.
  intros [Hnd Hfresh] (_ & news & Hsubs & _ & Hids & Hnext).
  unfold ids_ok. rewrite Hsubs, Hnext, fmap_app, Hids.
  rewrite Forall_forall in Hfresh. split.
  - apply NoDup_app. split; [done|]. split; [|apply NoDup_seqZ].
    intros n (a & -> & Ha)%list_elem_of_fmap Hn%elem_of_seqZ.
    specialize (Hfresh a Ha). lia.
  - apply Forall_app. split.
    + apply Forall_forall. intros a Ha. specialize (Hfresh a Ha). lia.
    + apply Forall_forall. intros a Ha.
      assert (Hin : agent_id a ∈ agent_id <$> news) by (by apply list_elem_of_fmap_2).
      rewrite Hids in Hin. apply elem_of_seqZ in Hin. lia.
Qed.

Lemma ids_ok_shrinks h h' : ids_ok h -> shrinks h h' -> ids_ok h'.
Proof.
  intros [Hnd Hfresh] (_ & Hsub & Hnext). unfold ids_ok. rewrite Hnext. split.
  - by eapply NoDup_fmap_sublist.
  - by eapply Forall_sublist.
Qed.

Lemma times_ok_grows T now h h' :
  T <= now -> times_ok T h -> grows now h h' -> times_ok now h'.
Proof.
  intros HT [Hsorted Hpast] (_ & news & Hsubs & Hnews & _).
  unfold times_ok. rewrite Hsubs.
  rewrite Forall_forall in Hpast, Hnews. split.
  - apply StronglySorted_app. split; [|split; [done|]].
    + intros a b Ha Hb. unfold not_after.
      specialize (Hpast a Ha). destruct (Hnews b Hb) as [_ ->]. lia.
    + clear Hsubs. induction news as [|a news IH]; [constructor|].
      apply StronglySorted_cons. split.
      * apply Forall_forall. intros b Hb. unfold not_after.
        destruct (Hnews a ltac:(by left)) as [_ ->].
        destruct (Hnews b ltac:(by right)) as [_ ->]. lia.
      * apply IH. intros b Hb. apply Hnews. by right.
  - apply Forall_app. split; apply Forall_forall.
    + intros a Ha. specialize (Hpast a Ha). simpl in Hpast. lia.
    + intros a Ha. destruct (Hnews a Ha) as [_ ->]. lia.
Qed.

Lemma times_ok_shrinks T now h h' :
  T <= now -> times_ok T h -> shrinks h h' -> times_ok now h'.
Proof.
  intros HT [Hsorted Hpast] (_ & Hsub & _). split.
  - by eapply StronglySorted_sublist.
  - eapply Forall_sublist; [done|].
    eapply Forall_impl; [exact Hpast|]. simpl. intros a Ha. lia.
Qed.

Lemma mock_ids_ok boot : ids_ok (mockAgentHierarchy boot).
Proof.
  split; simpl.
  - apply (bool_decide_unpack _). vm_compute. exact I.
  - repeat constructor.
Qed.

Lemma mock_times_ok boot : times_ok boot (mockAgentHierarchy boot).
Proof.
  split; simpl.
  - repeat constructor. unfold not_after. simpl. lia.
  - repeat constructor; simpl; lia.
Qed.

Lemma serve_ids_ok h r : ids_ok h -> ids_ok (serve h r).
Proof.
  intros Hok. unfold serve.
  destruct (POST_effect r.1 r.2 h) as [Hg|Hs].
  - by eapply ids_ok_grows.
  - by eapply ids_ok_shrinks.
Qed.

Lemma serve_times_ok T h r : T <= r.1 -> times_ok T h -> times_ok r.1 (serve h r).
Proof.
  intros HT Hok. unfold serve.
  destruct (POST_effect r.1 r.2 h) as [Hg|Hs].
  - by eapply times_ok_grows.
  - by eapply times_ok_shrinks.
Qed.

Lemma foldl_serve_ids_ok reqs h : ids_ok h -> ids_ok (foldl serve h reqs).
Proof.
  revert h. induction reqs as [|r reqs IH]; intros h Hok; [done|].
  simpl. by apply IH, serve_ids_ok.
Qed.

Lemma run_ids_ok boot reqs : ids_ok (run boot reqs).
Proof. apply foldl_serve_ids_ok, mock_ids_ok. Qed.

Lemma foldl_serve_times_ok reqs T h now :
  times_ok T h -> Sorted Z.le (T :: (fst <$> reqs) ++ [now]) ->
  exists T', T' <= now /\ times_ok T' (foldl serve h reqs).
Proof.
  revert T h. induction reqs as [|r reqs IH]; intros T h Hok Hsorted.
  - simpl in *. exists T. split; [|done].
    apply Sorted_inv in Hsorted as [_ Hhd]. by apply HdRel_inv in Hhd.
  - simpl in *. apply Sorted_inv in Hsorted as [Hsorted Hhd].
    apply HdRel_inv in Hhd.
    apply (IH r.1); [|done]. by apply (serve_times_ok T).
Qed.

Lemma run_times_ok boot reqs now :
  monotone_clock boot reqs now ->
  exists T, T <= now /\ times_ok T (run boot reqs).
Proof.
  intros Hclock.
  apply (foldl_serve_times_ok reqs boot); [apply mock_times_ok|exact Hclock].
Qed.

Lemma scale_agents_boss now q h :
  boss_agent (scale_agents now q h) = boss_agent h.
Proof. by destruct (scale_agents_effect now q h) as [[? _]|[? _]]. Qed.

Lemma scale_agents_total now q h :
  total_agents (scale_agents now q h)
  = Z.of_nat (length (subordinate_agents (scale_agents now q h))) + 1.
Proof. done. Qed.

Lemma serve_counted h r : counted h -> counted (serve h r).
Proof.
  intros [Htotal Hboss]. unfold serve.
  destruct (POST_cases r.1 r.2 h) as [->|[[nm ->]|[q ->]]]; [done| |].
  - split; [|done]. simpl. rewrite length_app. simpl. lia.
  - split; [apply scale_agents_total|]. by rewrite scale_agents_boss.
Qed.

(** C9: after every sequence of requests to the hierarchy route (agent
    creation, scaling up or down, and requests that are refused),
    [total_agents] is the number of subordinate records plus one for the
    boss, and the boss has [agent_id] 0. *)
Theorem C9_total_agents_counts_records (boot : Z)
    (reqs : list (Z * option json)) :
  total_agents (run boot reqs)
  = Z.of_nat (length (subordinate_agents (run boot reqs))) + 1 /\
  agent_id (boss_agent (run boot reqs)) = 0.
Proof.
  change (counted (run boot reqs)). unfold run.
  assert (Hmock : counted (mockAgentHierarchy boot)) by done.
  revert Hmock. generalize (mockAgentHierarchy boot).
  induction reqs as [|r reqs IH]; intros h Hh; [done|].
  simpl. by apply IH, serve_counted.
Qed.

(** C6: on every store that requests can produce, scaling leaves the boss
    record as it is and keeps every subordinate that is not idle, in place
    and unchanged; whatever is removed is idle; and, the clock not running
    backwards, no removed agent was active later than an idle agent that is
    kept. *)
Theorem C6_scaling_keeps_boss_and_working_agents (boot : Z)
    (reqs : list (Z * option json)) (now : Z) (target_count : Q) :
  let h := run boot reqs in
  let h' := (POST now (scale_request target_count) h).1 in
  boss_agent h' = boss_agent h /\
  filter (fun a => status a <> "idle") (subordinate_agents h')
  = filter (fun a => status a <> "idle") (subordinate_agents h) /\
  (forall a, a ∈ subordinate_agents h -> status a <> "idle" ->
             a ∈ subordinate_agents h') /\
  (forall a, a ∈ subordinate_agents h -> a ∉ subordinate_agents h' ->
             status a = "idle") /\
  (monotone_clock boot reqs now ->
   forall a b,
     a ∈ subordinate_agents h -> a ∉ subordinate_agents h' ->
     b ∈ subordinate_agents h' -> status b = "idle" ->
     last_active a <= last_active b).
Proof.
  intros h h'. subst h'. rewrite POST_scale.
  split; [apply scale_agents_boss|].
  assert (Hkept :
    filter (fun a => status a <> "idle") (subordinate_agents (scale_agents now target_count h))
    = filter (fun a => status a <> "idle") (subordinate_agents h) /\
    (forall a, a ∈ subordinate_agents h ->
       a ∉ subordinate_agents (scale_agents now target_count h) ->
       status a = "idle") /\
    (monotone_clock boot reqs now ->
     forall a b,
       a ∈ subordinate_agents h ->
       a ∉ subordinate_agents (scale_agents now target_count h) ->
       b ∈ subordinate_agents (scale_agents now target_count h) ->
       status b = "idle" -> last_active a <= last_active b)).
  { destruct (scale_agents_cases now target_count h)
      as [(_ & news & -> & Hnews & _)|(_ & _ & ->)].
    - split; [|split].
      + rewrite filter_app, (filter_none _ news), app_nil_r; [done|].
        rewrite Forall_forall in Hnews. intros a Ha Hbusy.
        by destruct (Hnews a Ha).
      + intros a Ha Hgone. exfalso. apply Hgone, elem_of_app. by left.
      + intros _ a b Ha Hgone. exfalso. apply Hgone, elem_of_app. by left.
    - destruct (run_ids_ok boot reqs) as [Hnd _]. fold h in Hnd.
      unfold for_loop. rewrite remove_loop_filter by done.
      destruct (removal_spec (subordinate_agents h)
                  (loop_count (removal_bound target_count (subordinate_agents h))) Hnd)
        as (Hbusy & Hgone & Hstay).
      split; [exact Hbusy|]. split.
      + intros a Ha Ha'. specialize (Hgone a Ha Ha').
        apply elem_of_take in Hgone as (i & Hi%list_elem_of_lookup_2 & _).
        by apply list_elem_of_filter in Hi as [Hi _].
      + intros Hclock a b Ha Ha' Hb Hidle.
        destruct (run_times_ok boot reqs now Hclock) as (T & _ & Hsorted & _).
        fold h in Hsorted.
        assert (Hidles : StronglySorted not_after
                  (filter is_idle (subordinate_agents h))).
        { eapply StronglySorted_sublist; [apply sublist_filter|exact Hsorted]. }
        rewrite <- (take_drop (loop_count (removal_bound target_count (subordinate_agents h))))
          in Hidles.
        apply (StronglySorted_app_1_elem_of _ _ _ a b Hidles).
        * by apply Hgone.
        * by apply Hstay. }
  destruct Hkept as (Hbusy & Hgone & Hleast).
  split; [exact Hbusy|]. split; [|split; [exact Hgone|exact Hleast]].
  intros a Ha Hbusya.
  assert (Hin : a ∈ filter (fun a => status a <> "idle") (subordinate_agents h))
    by (by apply list_elem_of_filter).
  rewrite <- Hbusy in Hin. by apply list_elem_of_filter in Hin as [_ Hin].
Qed.

(** The theorem of C6 on a store of five subordinates scaled down to
    two: agents 1, 3 and 4 go, the busy agent 2 and the idle agent 5
    stay. *)
Lemma C6_witness :
  agent_id <$> subordinate_agents (run 1000000 sample_requests) = [1; 2; 3; 4; 5] /\
  agent_id <$> subordinate_agents
    (POST 1000300 (scale_request 2) (run 1000000 sample_requests)).1 = [2; 5] /\
  (forall a b,
     a ∈ subordinate_agents (run 1000000 sample_requests) ->
     a ∉ subordinate_agents
           (POST 1000300 (scale_request 2) (run 1000000 sample_requests)).1 ->
     b ∈ subordinate_agents
           (POST 1000300 (scale_request 2) (run 1000000 sample_requests)).1 ->
     status b = "idle" ->
     last_active a <= last_active b).
Proof.
  split; [vm_compute; reflexivity|]. split; [vm_compute; reflexivity|].
  apply (C6_scaling_keeps_boss_and_working_agents
           1000000 sample_requests 1000300 2).
  unfold monotone_clock. simpl. repeat constructor; lia.
Defined.

(** *** The two branches of scaling *)

Lemma scale_agents_up now q h :
  (inject_Z (Z.of_nat (length (subordinate_agents h))) < q)%Q ->
  subordinate_agents (scale_agents now q h)
  = subordinate_agents
      (for_loop (q - inject_Z (Z.of_nat (length (subordinate_agents h))))%Q
         (fun _ => add_auto_agent now) h).
Proof.
  intros Hup. unfold scale_agents.
  destruct (Qlt_le_dec _ q) as [_|Hle]; [done|].
  exfalso. by apply (Qlt_not_le _ _ Hup).
Qed.

Lemma scale_agents_down now q h :
  (q < inject_Z (Z.of_nat (length (subordinate_agents h))))%Q ->
  subordinate_agents (scale_agents now q h)
  = for_loop (removal_bound q (subordinate_agents h))
      (remove_idle_at (filter is_idle (subordinate_agents h)))
      (subordinate_agents h).
Proof.
  intros Hdown. unfold scale_agents.
  destruct (Qlt_le_dec _ q) as [Hup|_].
  - exfalso. apply (Qlt_irrefl q). by eapply Qlt_trans.
  - destruct (Qlt_le_dec q _) as [_|Hle]; [done|].
    exfalso. by apply (Qlt_not_le _ _ Hdown).
Qed.

End AgentHierarchyFacts.

(** ** More about the agent hierarchy *)

Module HierarchyFacts.

Import AgentHierarchy AgentHierarchyNotions HierarchyNotions ListFacts
  AgentHierarchyFacts.

(** *** Ids *)

Lemma POST_next_agent_id now body h :
  next_agent_id h <= next_agent_id (POST now body h).1.
Proof.
  destruct (POST_effect now body h)
    as [(_ & news & _ & _ & _ & ->)|(_ & _ & ->)]; lia.
Qed.

Lemma POST_new_ids now body h a :
  a ∈ subordinate_agents (POST now body h).1 ->
  a ∈ subordinate_agents h \/
  next_agent_id h <= agent_id a < next_agent_id (POST now body h).1.
Proof.
  destruct (POST_effect now body h)
    as [(_ & news & -> & _ & Hids & ->)|(_ & Hsub & _)]; intros Ha.
  - apply elem_of_app in Ha as [Ha|Ha]; [by left|right].
    assert (Hin : agent_id a ∈ agent_id <$> news) by (by apply list_elem_of_fmap_2).
    rewrite Hids in Hin. apply elem_of_seqZ in Hin. lia.
  - left. by eapply elem_of_sublist.
Qed.

Lemma run_snoc boot reqs r : run boot (reqs ++ [r]) = serve (run boot reqs) r.
Proof. unfold run. by rewrite foldl_app. Qed.

Lemma run_ids_positive boot reqs :
  3 <= next_agent_id (run boot reqs) /\
  Forall (fun a => 1 <= agent_id a) (subordinate_agents (run boot reqs)).
Proof.
  induction reqs as [|r reqs IH] using rev_ind.
  - split; [simpl; lia|]. repeat constructor; simpl; lia.
  - rewrite run_snoc. unfold serve. destruct IH as [Hnext Hpos].
    split.
    + pose proof (POST_next_agent_id r.1 r.2 (run boot reqs)). lia.
    + apply Forall_forall. intros a Ha.
      apply POST_new_ids in Ha as [Ha|Ha]; [|lia].
      rewrite Forall_forall in Hpos. by apply Hpos.
Qed.

(** The ids of the subordinates are distinct, at least 1 (0 is the boss) and
    below [next_agent_id]; a request never lowers [next_agent_id], and every
    subordinate it leaves was there before or has an id that was not given
    out before. *)
Theorem hierarchy_ids_are_never_reused (boot : Z)
    (reqs : list (Z * option json)) (now : Z) (body : option json) :
  let h := run boot reqs in
  let h' := (POST now body h).1 in
  NoDup (agent_id <$> subordinate_agents h) /\
  Forall (fun a => 1 <= agent_id a < next_agent_id h) (subordinate_agents h) /\
  next_agent_id h <= next_agent_id h' /\
  (forall a, a ∈ subordinate_agents h' ->
     a ∈ subordinate_agents h \/
     next_agent_id h <= agent_id a < next_agent_id h').
Proof.
  intros h h'. subst h h'. destruct (run_ids_ok boot reqs) as [Hnd Hfresh].
  destruct (run_ids_positive boot reqs) as [_ Hpos].
  split; [exact Hnd|]. split; [|split].
  - rewrite Forall_forall in Hfresh, Hpos |- *. intros a Ha.
    specialize (Hfresh a Ha). specialize (Hpos a Ha). simpl in *. lia.
  - apply POST_next_agent_id.
  - apply POST_new_ids.
Qed.


(** A name that cannot be rendered: the request
    [{ action: "create_agent", agent_name: { toString: 1 } }] is answered
    500, and the agent is in the store. *)
Lemma unrenderable_name_is_stored_and_refused :
  code (POST 1755475260000 unrenderable_request (mockAgentHierarchy 1755475200000)).2
  = 500 /\
  agent_id <$> subordinate_agents
    (POST 1755475260000 unrenderable_request (mockAgentHierarchy 1755475200000)).1
  = [1; 2; 3].
Proof. split; vm_compute; reflexivity. Qed.

(** *** How many subordinates scaling leaves *)

Lemma scale_agents_keeps_working now q h :
  NoDup (agent_id <$> subordinate_agents h) ->
  working (subordinate_agents (scale_agents now q h))
  = working (subordinate_agents h).
Proof.
  intros Hnd. unfold working.
  destruct (scale_agents_cases now q h)
    as [(_ & news & -> & Hnews & _)|(_ & _ & ->)].
  - rewrite filter_app, (filter_none _ news), app_nil_r; [done|].
    rewrite Forall_forall in Hnews. intros a Ha Hbusy.
    by destruct (Hnews a Ha).
  - unfold for_loop. rewrite remove_loop_filter by done.
    by destruct (removal_spec (subordinate_agents h)
      (loop_count (removal_bound q (subordinate_agents h))) Hnd) as [? _].
Qed.

Lemma length_idle_working (subs : list Agent) :
  length subs = (length (filter is_idle subs) + length (working subs))%nat.
Proof.
  unfold working. rewrite <- length_app.
  by rewrite (filter_app_complement is_idle subs).
Qed.

(** With distinct ids, taking out the agents with the ids of [k] listed
    idle agents shortens the list by [k], as far as there are idle agents. *)
Lemma length_removed (subs : list Agent) (k : nat) :
  NoDup (agent_id <$> subs) ->
  length (filter (fun a => agent_id a ∉ agent_id <$> take k (filter is_idle subs)) subs)
  = (length subs - Nat.min k (length (filter is_idle subs)))%nat.
Proof.
  intros Hnd.
  set (gone := take k (filter is_idle subs)).
  assert (Hgone : filter (fun a => ~ (agent_id a ∉ agent_id <$> gone)) subs ≡ₚ gone).
  { apply NoDup_Permutation.
    - apply NoDup_filter. by apply NoDup_fmap_1 in Hnd.
    - eapply sublist_NoDup; [|apply sublist_take].
      apply NoDup_filter. by apply NoDup_fmap_1 in Hnd.
    - intros a. rewrite list_elem_of_filter. split.
      + intros [Hin Ha].
        destruct (decide (agent_id a ∈ agent_id <$> gone)) as [Hid|Hid]; [|done].
        apply list_elem_of_fmap in Hid as (x & Hid & Hx).
        assert (Hxs : x ∈ subs).
        { pose proof (elem_of_sublist _ _ _ Hx (sublist_take _ k)) as Hx'.
          by apply list_elem_of_filter in Hx' as [_ ?]. }
        by rewrite (same_key agent_id subs a x Hnd Ha Hxs Hid).
      + intros Ha. split.
        * intros Hnot. apply Hnot. by apply list_elem_of_fmap_2.
        * pose proof (elem_of_sublist _ _ _ Ha (sublist_take _ k)) as Ha'.
          by apply list_elem_of_filter in Ha' as [_ ?]. }
  pose proof (filter_app_complement
    (fun a => agent_id a ∉ agent_id <$> gone) subs) as Hsplit.
  apply Permutation_length in Hsplit. rewrite length_app in Hsplit.
  rewrite (Permutation_length Hgone) in Hsplit.
  assert (Hlen : length gone = Nat.min k (length (filter is_idle subs)))
    by apply length_take.
  lia.
Qed.

Lemma loop_count_integer (bound : Q) (z : Z) :
  (bound == inject_Z z)%Q -> loop_count bound = Z.to_nat z.
Proof. intros Heq. unfold loop_count. by rewrite Heq, Qceiling_Z. Qed.

Lemma add_loop_length now (n : nat) (l : list nat) h :
  length l = n ->
  length (subordinate_agents (foldl (fun s _ => add_auto_agent now s) h l))
  = (length (subordinate_agents h) + n)%nat.
Proof.
  revert h n. induction l as [|i l IH]; intros h n Hn; simpl in *.
  - subst. lia.
  - destruct n as [|n]; [done|]. rewrite (IH _ n) by lia.
    simpl. rewrite length_app. simpl. lia.
Qed.

Lemma Qmin_integers (a b : Z) :
  (Qmin (inject_Z a) (inject_Z b) == inject_Z (Z.min a b))%Q.
Proof.
  destruct (Z.le_ge_cases a b) as [Hle|Hge].
  - rewrite Z.min_l by done. apply Q.min_l. by rewrite <- Zle_Qle.
  - rewrite Z.min_r by lia. apply Q.min_r. rewrite <- Zle_Qle. lia.
Qed.

Lemma scale_agents_length now (t : Z) h :
  NoDup (agent_id <$> subordinate_agents h) ->
  Z.of_nat (length (subordinate_agents (scale_agents now (inject_Z t) h)))
  = Z.max t (Z.of_nat (length (working (subordinate_agents h)))).
Proof.
  intros Hnd.
  pose proof (length_idle_working (subordinate_agents h)) as Hparts.
  destruct (Z.lt_trichotomy (Z.of_nat (length (subordinate_agents h))) t)
    as [Hup|[Heq|Hdown]].
  - rewrite scale_agents_up by (by rewrite <- Zlt_Qlt).
    unfold for_loop.
    rewrite (add_loop_length now
      (Z.to_nat (t - Z.of_nat (length (subordinate_agents h))))).
    + lia.
    + rewrite length_seq. apply loop_count_integer.
      unfold Zminus. by rewrite inject_Z_plus, inject_Z_opp.
  - unfold scale_agents.
    destruct (Qlt_le_dec _ (inject_Z t)) as [H|_];
      [rewrite <- Zlt_Qlt in H; lia|].
    destruct (Qlt_le_dec (inject_Z t) _) as [H|_];
      [rewrite <- Zlt_Qlt in H; lia|].
    simpl. lia.
  - rewrite scale_agents_down by (by rewrite <- Zlt_Qlt).
    unfold for_loop. rewrite remove_loop_filter, length_removed by done.
    rewrite (loop_count_integer _
      (Z.min (Z.of_nat (length (subordinate_agents h)) - t)
             (Z.of_nat (length (filter is_idle (subordinate_agents h)))))).
    + lia.
    + unfold removal_bound. rewrite <- Qmin_integers.
      unfold Zminus. by rewrite inject_Z_plus, inject_Z_opp.
Qed.

(** On every store that requests can produce, scaling to a whole number [t]
    leaves [max t w] subordinates, where [w] is the number of subordinates
    that are not idle: the target is reached exactly when [w <= t], while
    the answer reports the target in either case. *)
Theorem scaling_reaches_target_unless_agents_work (boot : Z)
    (reqs : list (Z * option json)) (now : Z) (t : Z) :
  let h := run boot reqs in
  let w := Z.of_nat (length (working (subordinate_agents h))) in
  let out := POST now (scale_request (inject_Z t)) h in
  Z.of_nat (length (subordinate_agents out.1)) = Z.max t w /\
  (Z.of_nat (length (subordinate_agents out.1)) = t <-> w <= t) /\
  message out.2 = ScaledTo (inject_Z t) /\
  code out.2 = 200.
Proof.
  intros h w out. subst out. rewrite POST_scale.
  destruct (run_ids_ok boot reqs) as [Hnd _]. fold h in Hnd.
  rewrite (scale_agents_length now t h Hnd). fold w.
  split; [done|]. split; [lia|]. done.
Qed.

(** *** Scaling twice *)

Lemma recount_scale_agents now q h :
  recount (scale_agents now q h) = scale_agents now q h.
Proof. done. Qed.

Lemma scale_agents_settled now later (t : Z) h :
  NoDup (agent_id <$> subordinate_agents h) ->
  scale_agents later (inject_Z t) (scale_agents now (inject_Z t) h)
  = scale_agents now (inject_Z t) h.
Proof.
  intros Hnd.
  pose proof (scale_agents_length now t h Hnd) as Hlen.
  pose proof (scale_agents_keeps_working now (inject_Z t) h Hnd) as Hwork.
  rewrite <- (recount_scale_agents now (inject_Z t) h) at 2.
  set (h1 := scale_agents now (inject_Z t) h) in *. clearbody h1.
  pose proof (length_idle_working (subordinate_agents h1)) as Hparts.
  rewrite Hwork in Hparts.
  unfold scale_agents at 1.
  destruct (Qlt_le_dec _ (inject_Z t)) as [H|_];
    [exfalso; rewrite <- Zlt_Qlt in H; lia|].
  destruct (Qlt_le_dec (inject_Z t) _) as [Hdown|_]; [|done].
  rewrite <- Zlt_Qlt in Hdown.
  assert (Hnone : filter (fun a => status a = "idle") (subordinate_agents h1) = []).
  { apply nil_length_inv. change (fun a => status a = "idle") with is_idle. lia. }
  rewrite Hnone. f_equal.
  assert (Hsame : for_loop
            (Qmin (inject_Z (Z.of_nat (length (subordinate_agents h1))) - inject_Z t)
                  (inject_Z (Z.of_nat (length (@nil Agent)))))
            (remove_idle_at []) (subordinate_agents h1)
          = subordinate_agents h1).
  { apply for_loop_ind; [done|]. intros i subs ->. done. }
  rewrite Hsame. by destruct h1.
Qed.

(** On every store that requests can produce, scaling a second time to the
    same whole number changes nothing: the store after the second request
    is the store after the first. *)
Theorem scaling_twice_is_scaling_once (boot : Z)
    (reqs : list (Z * option json)) (now later : Z) (t : Z) :
  let h1 := (POST now (scale_request (inject_Z t)) (run boot reqs)).1 in
  (POST later (scale_request (inject_Z t)) h1).1 = h1.
Proof.
  intros h1. subst h1. rewrite !POST_scale.
  apply scale_agents_settled. by destruct (run_ids_ok boot reqs).
Qed.

(** A target that is not a whole number does not settle: on the mock
    hierarchy, scaling to 2.5 adds agent 3, and scaling to 2.5 again removes
    agent 1. *)
Lemma fractional_target_does_not_settle :
  agent_id <$> subordinate_agents
    (POST 1755475260000 (scale_request (5 # 2))
       (mockAgentHierarchy 1755475200000)).1 = [1; 2; 3] /\
  agent_id <$> subordinate_agents
    (POST 1755475320000 (scale_request (5 # 2))
       (POST 1755475260000 (scale_request (5 # 2))
          (mockAgentHierarchy 1755475200000)).1).1 = [2; 3].
Proof. split; vm_compute; reflexivity. Qed.

(** *** The statistics *)

Lemma count_status_app st (l k : list Agent) :
  count_status st (l ++ k) = count_status st l + count_status st k.
Proof. unfold count_status. rewrite filter_app, length_app. lia. Qed.

Lemma serve_stats_agree h r : stats_agree h -> stats_agree (serve h r).
Proof.
  intros (Hidle & Hbusy & Hdone). unfold serve.
  destruct (POST_cases r.1 r.2 h) as [->|[[nm ->]|[q ->]]]; [done| |done].
  unfold stats_agree. simpl.
  rewrite !count_status_app, foldl_app, <- Hidle, <- Hbusy, <- Hdone.
  split; [done|]. split; [|simpl; lia].
  unfold count_status. simpl. lia.
Qed.

(** On every store that requests can produce, [idle_agents], [busy_agents]
    and [total_completed_tasks] agree with the records, also after
    [create_agent], which does not recompute the statistics; and after a
    scaling request [active_agents] counts the active subordinates and the
    boss. *)
Theorem hierarchy_stats_agree_with_records (boot : Z)
    (reqs : list (Z * option json)) (now : Z) (q : Q) :
  let h := run boot reqs in
  idle_agents (hierarchy_stats h) = count_status "idle" (subordinate_agents h) /\
  busy_agents (hierarchy_stats h) = count_status "busy" (subordinate_agents h) /\
  total_completed_tasks (hierarchy_stats h)
  = foldl (fun sum a => sum + completed_tasks a) 15 (subordinate_agents h) /\
  active_agents (hierarchy_stats (POST now (scale_request q) h).1)
  = count_status "active" (subordinate_agents (POST now (scale_request q) h).1) + 1.
Proof.
  intros h.
  assert (Hagree : stats_agree h).
  { subst h. induction reqs as [|r reqs IH] using rev_ind.
    - split; [done|]. split; done.
    - rewrite run_snoc. by apply serve_stats_agree. }
  destruct Hagree as (? & ? & ?). done.
Qed.

(** *** The agent that is busy *)

Lemma run_counted boot reqs : counted (run boot reqs).
Proof.
  induction reqs as [|r reqs IH] using rev_ind; [done|].
  rewrite run_snoc. by apply serve_counted.
Qed.

Lemma serve_working h r :
  NoDup (agent_id <$> subordinate_agents h) ->
  working (subordinate_agents (serve h r)) = working (subordinate_agents h).
Proof.
  intros Hnd. unfold serve.
  destruct (POST_cases r.1 r.2 h) as [->|[[nm ->]|[q ->]]]; [done| |].
  - unfold working. simpl. rewrite filter_app. simpl.
    rewrite filter_cons_False, filter_nil, app_nil_r; [done|].
    intros Hbusy. by apply Hbusy.
  - by apply scale_agents_keeps_working.
Qed.

Lemma run_working boot reqs :
  working (subordinate_agents (run boot reqs)) = [analysis_agent boot].
Proof.
  induction reqs as [|r reqs IH] using rev_ind; [done|].
  rewrite run_snoc, serve_working; [done|].
  by destruct (run_ids_ok boot reqs).
Qed.

(** *** What the target counts *)

Lemma add_loop_records now (l : list nat) h :
  subordinate_agents (foldl (fun s _ => add_auto_agent now s) h l)
  = subordinate_agents h
    ++ (auto_agent now <$> seqZ (next_agent_id h) (Z.of_nat (length l))).
Proof.
  revert h. induction l as [|x l IH]; intros h.
  - simpl. by rewrite app_nil_r.
  - cbn [foldl]. rewrite IH. cbn [add_auto_agent subordinate_agents next_agent_id].
    rewrite <- app_assoc. f_equal.
    rewrite (seqZ_cons (next_agent_id h)) by (simpl; lia).
    rewrite fmap_cons. simpl. do 2 f_equal. f_equal; lia.
Qed.

Lemma scale_agents_grown now (t : Z) h :
  Z.of_nat (length (subordinate_agents h)) <= t ->
  subordinate_agents (scale_agents now (inject_Z t) h)
  = subordinate_agents h
    ++ (auto_agent now
          <$> seqZ (next_agent_id h) (t - Z.of_nat (length (subordinate_agents h)))).
Proof.
  intros Hle. destruct (decide (Z.of_nat (length (subordinate_agents h)) = t)) as [Heq|Hne].
  - unfold scale_agents.
    destruct (Qlt_le_dec _ (inject_Z t)) as [Hlt|_].
    { rewrite <- Zlt_Qlt in Hlt. lia. }
    destruct (Qlt_le_dec (inject_Z t) _) as [Hlt|_].
    { rewrite <- Zlt_Qlt in Hlt. lia. }
    rewrite recount_subordinates.
    replace (t - Z.of_nat (length (subordinate_agents h))) with 0 by lia.
    by rewrite app_nil_r.
  - rewrite scale_agents_up by (rewrite <- Zlt_Qlt; lia).
    unfold for_loop.
    rewrite (loop_count_integer _ (t - Z.of_nat (length (subordinate_agents h)))).
    2:{ unfold Zminus. by rewrite inject_Z_plus, inject_Z_opp. }
    rewrite (add_loop_records now (seq 0 _) h), length_seq.
    by rewrite Z2Nat.id by lia.
Qed.

Lemma scale_agents_to_zero later h :
  NoDup (agent_id <$> subordinate_agents h) ->
  subordinate_agents (scale_agents later 0 h) = working (subordinate_agents h).
Proof.
  intros Hnd.
  pose proof (scale_agents_length later 0 h Hnd) as Hlen.
  pose proof (scale_agents_keeps_working later 0 h Hnd) as Hwork.
  change (inject_Z 0) with 0%Q in Hlen.
  pose proof (length_idle_working (subordinate_agents (scale_agents later 0 h)))
    as Hparts.
  rewrite Hwork in Hparts.
  assert (Hidle : filter is_idle (subordinate_agents (scale_agents later 0 h)) = []).
  { apply length_zero_iff_nil. lia. }
  rewrite <- Hwork. symmetry. apply filter_all.
  intros a Ha Hidle_a.
  assert (Hin : a ∈ filter is_idle (subordinate_agents (scale_agents later 0 h))).
  { by apply list_elem_of_filter. }
  rewrite Hidle in Hin. by apply elem_of_nil in Hin.
Qed.

(** C7, as stated, fails: the mock hierarchy has the boss and two
    subordinates, three agents in all; scaled to a target of 3 it gets a
    third subordinate and counts four agents, so that the boss is not
    counted toward the target; and scaled to 0 afterwards it keeps the busy
    agent 2 besides the boss. *)
Lemma C7_boss_is_not_counted_toward_the_target :
  total_agents (mockAgentHierarchy 1755475200000) = 3 /\
  agent_id <$> subordinate_agents
    (POST 1755475260000 (scale_request 3) (mockAgentHierarchy 1755475200000)).1
  = [1; 2; 3] /\
  total_agents
    (POST 1755475260000 (scale_request 3) (mockAgentHierarchy 1755475200000)).1
  = 4 /\
  agent_id <$> subordinate_agents
    (POST 1755475320000 (scale_request 0)
       (POST 1755475260000 (scale_request 3)
          (mockAgentHierarchy 1755475200000)).1).1
  = [2].
Proof. repeat split; vm_compute; reflexivity. Qed.

(** C7, amended: the target counts the subordinates only.  On every store
    that requests produce from the mock hierarchy, scaling to a whole
    target [t] that is not below the number [n] of subordinates appends
    exactly [t - n] records, idle, of role "subordinate" and numbered
    consecutively from [next_agent_id], so that [total_agents] is [t + 1];
    the boss stays as it is.  Scaling to 0 afterwards removes every idle
    subordinate and leaves the boss and the busy agent 2 of the mock
    hierarchy, two agents: the boss is never left alone. *)
Theorem C7_target_counts_subordinates_only (boot : Z)
    (reqs : list (Z * option json)) (now later : Z) (t : Z) :
  let h := run boot reqs in
  let n := Z.of_nat (length (subordinate_agents h)) in
  let h1 := (POST now (scale_request (inject_Z t)) h).1 in
  let h2 := (POST later (scale_request 0) h1).1 in
  n <= t ->
  subordinate_agents h1
  = subordinate_agents h ++ (auto_agent now <$> seqZ (next_agent_id h) (t - n)) /\
  length (auto_agent now <$> seqZ (next_agent_id h) (t - n)) = Z.to_nat (t - n) /\
  Forall (fun a => status a = "idle" /\ role a = "subordinate")
    (auto_agent now <$> seqZ (next_agent_id h) (t - n)) /\
  agent_id <$> (auto_agent now <$> seqZ (next_agent_id h) (t - n))
  = seqZ (next_agent_id h) (t - n) /\
  total_agents h1 = t + 1 /\
  boss_agent h1 = boss_agent h /\
  subordinate_agents h2 = [analysis_agent boot] /\
  total_agents h2 = 2 /\
  boss_agent h2 = boss_agent h.
Proof.
  intros h n h1 h2 Hle.
  assert (Hsubs1 : subordinate_agents h1
            = subordinate_agents h
              ++ (auto_agent now <$> seqZ (next_agent_id h) (t - n))).
  { subst h1. rewrite POST_scale. by apply scale_agents_grown. }
  assert (Hrun1 : h1 = run boot (reqs ++ [(now, scale_request (inject_Z t))])).
  { by rewrite run_snoc. }
  assert (Hsubs2 : subordinate_agents h2 = [analysis_agent boot]).
  { subst h2. rewrite POST_scale, scale_agents_to_zero.
    - rewrite Hrun1. apply run_working.
    - rewrite Hrun1. by destruct (run_ids_ok boot (reqs ++ [(now, scale_request (inject_Z t))])). }
  split; [exact Hsubs1|]. split.
  { by rewrite length_fmap, length_seqZ. }
  split.
  { apply Forall_fmap, Forall_forall. by intros x _. }
  split.
  { rewrite <- list_fmap_compose. etrans; [|apply list_fmap_id].
    apply list_fmap_ext. by intros i x _. }
  split.
  { subst h1. rewrite POST_scale in *. rewrite scale_agents_total, Hsubs1.
    rewrite length_app, length_fmap, length_seqZ. fold n. lia. }
  split.
  { subst h1. rewrite POST_scale. apply scale_agents_boss. }
  split; [exact Hsubs2|]. split.
  { subst h2. rewrite POST_scale in *. rewrite scale_agents_total, Hsubs2. done. }
  subst h2 h1. rewrite !POST_scale, !scale_agents_boss. done.
Qed.

(** The theorem of C7 on the mock hierarchy, three agents with the boss: a
    target of 3 adds agent 3, and a target of 0 then leaves agent 2. *)
Lemma C7_witness :
  subordinate_agents
    (POST 1755475260000 (scale_request 3) (mockAgentHierarchy 1755475200000)).1
  = subordinate_agents (mockAgentHierarchy 1755475200000)
    ++ [auto_agent 1755475260000 3] /\
  subordinate_agents
    (POST 1755475320000 (scale_request 0)
       (POST 1755475260000 (scale_request 3)
          (mockAgentHierarchy 1755475200000)).1).1
  = [analysis_agent 1755475200000].
Proof.
  destruct (C7_target_counts_subordinates_only 1755475200000 []
              1755475260000 1755475320000 3 ltac:(simpl; lia))
    as (Hone & _ & _ & _ & _ & _ & Hleft & _).
  split; [exact Hone|exact Hleft].
Defined.

(** No request changes which subordinates are not idle: on every store that
    requests can produce these are the busy agent 2 of the mock hierarchy
    and no other, with its record as at the start.  So the hierarchy is
    never without subordinates, whatever target it is scaled to. *)
Theorem busy_agent_is_never_removed (boot : Z) (reqs : list (Z * option json)) :
  working (subordinate_agents (run boot reqs)) = [analysis_agent boot] /\
  analysis_agent boot ∈ subordinate_agents (run boot reqs) /\
  2 <= total_agents (run boot reqs).
Proof.
  assert (Hwork : working (subordinate_agents (run boot reqs)) = [analysis_agent boot]).
  { induction reqs as [|r reqs IH] using rev_ind; [done|].
    rewrite run_snoc, serve_working; [done|].
    by destruct (run_ids_ok boot reqs). }
  assert (Hin : analysis_agent boot ∈ subordinate_agents (run boot reqs)).
  { assert (H : analysis_agent boot ∈ working (subordinate_agents (run boot reqs)))
      by (rewrite Hwork; by left).
    by apply list_elem_of_filter in H as [_ ?]. }
  split; [done|]. split; [done|].
  destruct (run_counted boot reqs) as [-> _].
  destruct (subordinate_agents (run boot reqs)); [by apply elem_of_nil in Hin|].
  simpl. lia.
Qed.

End HierarchyFacts.

(** ** The LLM providers *)

Module LlmProvidersFacts.

Import LlmProviders LlmProvidersNotions.

Lemma named_Name v n :
  named v = Name n -> v = Some (JStr n) /\ n <> "" /\ n ∉ inherited.
Proof.
  unfold named. destruct (truthy v) eqn:Ht; [|done]. simpl.
  destruct v as [[]|]; try done.
  case_bool_decide; [done|]. intros [= ->].
  split; [done|]. split; [|done].
  intros ->. done.
Qed.

Lemma POST_outcome body s s' r :
  POST body s = Some (s', r) -> Outcome s s' r.
Proof.
  unfold POST. destruct body as [b|].
  2:{ intros [= <- <-]. apply Refused. lia. }
  destruct b; try (intros [= <- <-]; apply Refused; lia);
    repeat match goal with
    | |- context [AgentHierarchy.is_string ?a ?k] =>
        destruct (AgentHierarchy.is_string a k)
    | |- context [named ?v] =>
        let Hn := fresh "Hn" in
        destruct (named v) as [|n|] eqn:Hn;
        [| apply named_Name in Hn as (_ & ? & ?) |]
    | |- context [truthy ?v] => destruct (truthy v)
    | |- context [providers s !! ?n] =>
        let Hp := fresh "Hp" in destruct (providers s !! n) as [p|] eqn:Hp
    | |- context [is_initialized ?p] =>
        let Hi := fresh "Hi" in destruct (is_initialized p) eqn:Hi
    end;
    try done; intros [= <- <-];
    first [ apply Refused; lia | by apply KeySet | by eapply Switched
          | apply TestedProvider ].
Qed.

Lemma set_api_key_lookup n m s :
  providers (set_api_key n s) !! m
  = if decide (n = m) then with_key <$> providers s !! m else providers s !! m.
Proof.
  unfold set_api_key. destruct (providers s !! n) as [p|] eqn:Hp; simpl.
  - rewrite lookup_insert. case_decide; [subst; by rewrite Hp|done].
  - case_decide; [subst; by rewrite Hp|done].
Qed.

Lemma set_api_key_active n s :
  active_provider (set_api_key n s)
  = match providers s !! n, active_provider s with
    | Some _, None => Some n
    | _, a => a
    end.
Proof.
  unfold set_api_key.
  by destruct (providers s !! n), (active_provider s).
Qed.

Lemma mock_sound : sound mockLLMProviders.
Proof.
  split; [|split].
  - intros n. unfold mockLLMProviders, listed. simpl. split.
    + intros [p Hp].
      repeat (apply lookup_insert_Some in Hp as [[<- _]|[_ Hp]]; [in_list|]).
      done.
    + intros Hn.
      repeat (apply elem_of_cons in Hn as [->|Hn];
              [eexists; vm_compute; reflexivity|]).
      by apply elem_of_nil in Hn.
  - intros n p. unfold mockLLMProviders. simpl. intros Hp.
    repeat (apply lookup_insert_Some in Hp as [[_ <-]|[_ Hp]]; [done|]).
    done.
  - done.
Qed.

Lemma outcome_sound s s' r : Outcome s s' r -> sound s -> sound s'.
Proof.
  intros Hout (Hdom & Hflags & Hactive).
  destruct Hout as [| n Hne Hin | n p Hp Hi |]; try done.
  - split; [|split].
    + intros m. rewrite set_api_key_lookup. case_decide; [|apply Hdom].
      rewrite <- Hdom. by rewrite fmap_is_Some.
    + intros m p. rewrite set_api_key_lookup. case_decide; [|apply Hflags].
      intros (p0 & _ & ->)%fmap_Some. done.
    + intros a. rewrite set_api_key_active, set_api_key_lookup.
      destruct (providers s !! n) as [p|] eqn:Hp;
        destruct (active_provider s) as [a0|] eqn:Ha; intros [= <-].
      * destruct (Hactive a0 eq_refl) as (p0 & Hp0 & Hk).
        case_decide; [subst; rewrite Hp; by eexists|by exists p0].
      * rewrite decide_True, Hp by done. by eexists.
      * destruct (Hactive a0 eq_refl) as (p0 & Hp0 & Hk).
        case_decide; [congruence|]. by exists p0.
  - split; [done|]. split; [done|]. simpl. intros a [= <-].
    exists p. split; [done|].
    destruct (Hflags n p Hp) as [_ <-]. done.
Qed.

Lemma run_sound bodies s s' : run bodies s = Some s' -> sound s -> sound s'.
Proof.
  revert s. induction bodies as [|body bodies IH]; intros s; simpl.
  - by intros [= <-].
  - destruct (POST body s) as [[s1 r]|] eqn:Hpost; [|done].
    intros Hrun Hs. apply (IH s1 Hrun).
    eapply outcome_sound; [|done]. by eapply POST_outcome.
Qed.

(** After every sequence of requests in the model, the store has the five
    providers and no other, the three flags of every provider are equal,
    and the active provider, when there is one, is a provider with a key. *)
Theorem active_provider_always_has_a_key (bodies : list (option json))
    (s : Store) :
  run bodies mockLLMProviders = Some s ->
  (forall n, is_Some (providers s !! n) <-> n ∈ listed) /\
  (forall n p, providers s !! n = Some p ->
     is_active p = has_api_key p /\ is_initialized p = has_api_key p) /\
  (forall a, active_provider s = Some a ->
     exists p, providers s !! a = Some p /\ has_api_key p = true).
Proof. intros Hrun. apply (run_sound bodies _ s Hrun), mock_sound. Qed.

Lemma active_provider_always_has_a_key_witness :
  exists s,
    run two_keys mockLLMProviders = Some s /\
    active_provider s = Some "grok" /\
    exists p, providers s !! "grok" = Some p /\ has_api_key p = true.
Proof.
  eexists. split; [vm_compute; reflexivity|]. split; [reflexivity|].
  apply (active_provider_always_has_a_key two_keys); vm_compute; reflexivity.
Defined.

(** *** Keys *)

Lemma listed_not_inherited n : n ∈ listed -> n <> "" /\ n ∉ inherited.
Proof.
  intros Hn. unfold listed in Hn.
  repeat (apply elem_of_cons in Hn as [->|Hn];
          [split; [done|intros H; not_in_list H]|]).
  by apply elem_of_nil in Hn.
Qed.

Lemma named_string n : n <> "" -> n ∉ inherited -> named (Some (JStr n)) = Name n.
Proof.
  intros Hne Hin. unfold named. simpl.
  apply String.eqb_neq in Hne. rewrite Hne. simpl.
  by rewrite bool_decide_eq_false_2.
Qed.

(** A request sets a key for [n] exactly when it is answered so. *)
Lemma POST_sets_key body s s' r n :
  n <> "" -> n ∉ inherited ->
  POST body s = Some (s', r) ->
  sets_key body n <->
  s' = set_api_key n s /\ r = Answer 200 true (ApiKeySetFor n) (Some s').
Proof.
  intros Hne Hin Hpost. split.
  - intros (b & -> & Haction & Hprovider & Hkey).
    unfold POST in Hpost. rewrite Haction, Hprovider, Hkey in Hpost.
    rewrite (named_string n Hne Hin) in Hpost.
    destruct b; try discriminate Haction; by injection Hpost as <- <-.
  - intros [_ ->]. unfold POST in Hpost.
    destruct body as [b|]; [|done].
    exists b. split; [done|].
    destruct b; try done;
      repeat match type of Hpost with
      | context [AgentHierarchy.is_string ?a ?k] =>
          destruct (AgentHierarchy.is_string a k) eqn:?
      | context [named ?v] =>
          let Hm := fresh "Hm" in
          destruct (named v) as [|nm|] eqn:Hm;
          [| apply named_Name in Hm as (Hm & _ & _) |]
      | context [truthy ?v] => destruct (truthy v) eqn:?
      | context [providers s !! ?k] => destruct (providers s !! k) as [p|]
      | context [is_initialized ?p] => destruct (is_initialized p)
      end;
      try done.
    all: injection Hpost as _ ->. all: done.
Qed.

Lemma keyed_set_api_key m s n :
  keyed (set_api_key m s) n <->
  keyed s n \/ (m = n /\ is_Some (providers s !! n)).
Proof.
  unfold keyed. rewrite set_api_key_lookup. case_decide as Hmn.
  - subst m. split.
    + intros (p & (p0 & Hp0 & ->)%fmap_Some & _). right. split; [done|]. by eexists.
    + intros [(p & Hp & _)|[_ [p Hp]]]; rewrite Hp; by eexists.
  - split; [by left|]. by intros [?|[? _]].
Qed.

Lemma POST_keyed body s s' r n :
  sound s -> n ∈ listed ->
  POST body s = Some (s', r) ->
  keyed s' n <-> keyed s n \/ sets_key body n.
Proof.
  intros (Hdom & _) Hn Hpost.
  destruct (listed_not_inherited n Hn) as [Hne Hin].
  rewrite (POST_sets_key body s s' r n Hne Hin Hpost).
  destruct (POST_outcome body s s' r Hpost) as [code msg Hcode|m ? ?|m p Hp Hi|m].
  - split; [by left|]. by intros [?|[_ [=]]].
  - rewrite keyed_set_api_key. split.
    + intros [?|[-> _]]; [by left|by right].
    + intros [?|[_ [= ->]]]; [by left|].
      right. split; [done|]. by apply Hdom.
  - split; [by left|]. by intros [?|[_ [=]]].
  - split; [by left|]. by intros [?|[_ [=]]].
Qed.

Lemma run_keyed bodies s s' n :
  sound s -> n ∈ listed ->
  run bodies s = Some s' ->
  keyed s' n <-> keyed s n \/ exists body, body ∈ bodies /\ sets_key body n.
Proof.
  revert s. induction bodies as [|body bodies IH]; intros s Hs Hn; simpl.
  - intros [= <-]. split; [by left|].
    by intros [?|(body & ?%elem_of_nil & _)].
  - destruct (POST body s) as [[s1 r]|] eqn:Hpost; [|done]. intros Hrun.
    rewrite (IH s1);
      [|exact (outcome_sound s s1 r (POST_outcome body s s1 r Hpost) Hs)|done|done].
    rewrite (POST_keyed body s s1 r n Hs Hn Hpost). split.
    + intros [[?|?]|(b & ? & ?)]; [by left| |].
      * right. exists body. split; [by left|done].
      * right. exists b. split; [by right|done].
    + intros [?|(b & [->|?]%elem_of_cons & ?)]; [by left; left|by left; right|].
      right. by exists b.
Qed.

(** After requests in the model, a listed provider has a key exactly when
    one of the requests was a [set_api_key] for it with a truthy key: keys
    are never taken back, and nothing else sets one. *)
Theorem provider_has_key_iff_one_was_set (bodies : list (option json))
    (s : Store) (n : string) :
  n ∈ listed ->
  run bodies mockLLMProviders = Some s ->
  keyed s n <-> exists body, body ∈ bodies /\ sets_key body n.
Proof.
  intros Hn Hrun.
  rewrite (run_keyed bodies mockLLMProviders s n mock_sound Hn Hrun).
  split; [|by right]. intros [(p & Hp & Hk)|?]; [|done].
  exfalso. unfold mockLLMProviders in Hp. simpl in Hp.
  repeat (apply lookup_insert_Some in Hp as [[_ <-]|[_ Hp]]; [done|]).
  done.
Qed.

Lemma provider_has_key_iff_one_was_set_witness :
  (exists s, run two_keys mockLLMProviders = Some s /\ keyed s "openai") /\
  exists body, body ∈ two_keys /\ sets_key body "openai".
Proof.
  assert (Hrun : exists s, run two_keys mockLLMProviders = Some s /\ keyed s "openai").
  { eexists. split; [vm_compute; reflexivity|].
    eexists. split; vm_compute; reflexivity. }
  split; [exact Hrun|].
  destruct Hrun as (s & Hrun & Hkeyed).
  apply (provider_has_key_iff_one_was_set two_keys s "openai"); [in_list|done|done].
Defined.

(** *** Refusals, tests and switches *)

Lemma test_provider_status n s :
  (test_status (test_provider n s) = "success" <-> keyed s n) /\
  (test_status (test_provider n s) = "error" <-> ~ keyed s n).
Proof.
  unfold test_provider, keyed. simpl.
  destruct (providers s !! n) as [p|] eqn:Hp.
  - destruct (has_api_key p) eqn:Hk; split; split; try done.
    + intros _. by exists p.
    + intros H. destruct H. by exists p.
    + intros (p' & [= <-] & Hk'). congruence.
    + intros _ (p' & [= <-] & Hk'). congruence.
  - split; split; try done.
    + by intros (p' & [=] & _).
    + by intros _ (p' & [=] & _).
Qed.

Lemma POST_request_lookups (action provider : string) (rest : gmap string json) :
  prop (JObj (<["action" := JStr action]> (<["provider" := JStr provider]> rest)))
    "action" = Some (JStr action) /\
  prop (JObj (<["action" := JStr action]> (<["provider" := JStr provider]> rest)))
    "provider" = Some (JStr provider).
Proof. split; simpl; by simplify_map_eq. Qed.

(** A request that is answered with a test result is a [test_provider]
    for a provider given by name, and the result is the test of that
    provider on the store, which stays as it was. *)
Lemma POST_tested body s s' c ok t :
  POST body s = Some (s', Tested c ok t) ->
  s' = s /\ c = 200 /\ ok = true /\
  exists b n,
    body = Some b /\
    AgentHierarchy.is_string (prop b "action") "test_provider" = true /\
    prop b "provider" = Some (JStr n) /\
    t = test_provider n s.
Proof.
  unfold POST. destruct body as [b|]; [|done].
  destruct b; try done;
    repeat match goal with
    | |- context [AgentHierarchy.is_string ?a ?k] =>
        let Ha := fresh "Ha" in
        destruct (AgentHierarchy.is_string a k) eqn:Ha
    | |- context [named ?v] =>
        let Hn := fresh "Hn" in
        destruct (named v) as [|n|] eqn:Hn;
        [| apply named_Name in Hn as (Hn & _ & _) |]
    | |- context [truthy ?v] => destruct (truthy v)
    | |- context [providers s !! ?n] => destruct (providers s !! n) as [p|]
    | |- context [is_initialized ?p] => destruct (is_initialized p)
    end;
    try done.
  intros [= <- <- <- <-]. do 3 (split; [done|]). by eexists _, n.
Qed.

(** A request that is not answered 200 leaves the store as it was, and so
    does every [test_provider].  A test result is always the answer to a
    [test_provider] request and is about the provider that the request
    names: for a provider with a key it is "success" with the message that
    this provider is working correctly, for any other name, known or not,
    it is "error" with the message that this provider needs a key.  Every
    [test_provider] request for a name of the model is answered 200 with
    that result. *)
Theorem provider_refusals_and_tests_change_nothing (body : option json)
    (s s' : Store) (r : Response) :
  POST body s = Some (s', r) ->
  (code_of r <> 200 -> s' = s) /\
  (forall c ok t, r = Tested c ok t ->
     s' = s /\ c = 200 /\ ok = true /\
     exists b n,
       body = Some b /\
       AgentHierarchy.is_string (prop b "action") "test_provider" = true /\
       prop b "provider" = Some (JStr n) /\
       t = test_provider n s /\
       (keyed s n ->
        test_status t = "success" /\
        test_message t = WorkingCorrectly n /\
        test_response t = Some "Hello! I'm working correctly.") /\
       (~ keyed s n ->
        test_status t = "error" /\
        test_message t = NeedsApiKey n /\
        test_response t = None)) /\
  (forall n, n <> "" -> n ∉ inherited ->
     POST (test_request n) s = Some (s, Tested 200 true (test_provider n s))).
Proof.
  intros Hpost. split; [|split].
  - destruct (POST_outcome body s s' r Hpost) as [code msg Hcode|m ? ?|m p Hp Hi|m];
      try done; simpl; intros H; by destruct H.
  - intros c ok t ->.
    destruct (POST_tested body s s' c ok t Hpost)
      as (-> & -> & -> & b & n & -> & Haction & Hprovider & ->).
    do 3 (split; [done|]). exists b, n. do 4 (split; [done|]). split.
    + intros (p & Hp & Hk). unfold test_provider. by rewrite Hp, Hk.
    + intros Hnot. unfold test_provider.
      destruct (providers s !! n) as [p|] eqn:Hp; [|done].
      destruct (has_api_key p) eqn:Hk; [|done]. destruct Hnot. by exists p.
  - intros n Hn Hin. unfold POST, test_request.
    destruct (POST_request_lookups "test_provider" n ∅) as [-> ->].
    by rewrite (named_string n Hn Hin).
Qed.

Lemma provider_refusals_and_tests_change_nothing_witness :
  exists t,
    POST (test_request "grok") (set_api_key "grok" mockLLMProviders)
    = Some (set_api_key "grok" mockLLMProviders, Tested 200 true t) /\
    test_status t = "success" /\
    test_message t = WorkingCorrectly "grok".
Proof.
  eexists. split; [vm_compute; reflexivity|].
  destruct (provider_refusals_and_tests_change_nothing
              (test_request "grok") (set_api_key "grok" mockLLMProviders)
              (set_api_key "grok" mockLLMProviders) _ eq_refl)
    as (_ & Htest & _).
  destruct (Htest 200 true _ eq_refl)
    as (_ & _ & _ & b & n & Hb & _ & Hn & Ht & Hkeyed & _).
  injection Hb as <-. vm_compute in Hn. injection Hn as <-.
  assert (Hgrok : keyed (set_api_key "grok" mockLLMProviders) "grok").
  { eexists. split; [vm_compute; reflexivity|reflexivity]. }
  destruct (Hkeyed Hgrok) as (Hstatus & Hmessage & _).
  split; [exact Hstatus|exact Hmessage].
Defined.

(** A [set_api_key] for a name that is not a provider of the store is
    answered as done ("API key set for ..."), and changes nothing. *)
Theorem key_for_unknown_provider_is_accepted (n key : string) (s : Store) :
  n <> "" -> key <> "" -> n ∉ inherited ->
  providers s !! n = None ->
  POST (set_api_key_request n key) s
  = Some (s, Answer 200 true (ApiKeySetFor n) (Some s)).
Proof.
  intros Hn Hkey Hin Hnone. unfold POST, set_api_key_request.
  destruct (POST_request_lookups "set_api_key" n (<["api_key" := JStr key]> ∅))
    as [-> ->].
  rewrite (named_string n Hn Hin). simpl.
  rewrite !lookup_insert_ne, lookup_insert_eq by done. simpl.
  apply String.eqb_neq in Hkey. rewrite Hkey. simpl.
  unfold set_api_key. by rewrite Hnone.
Qed.

Lemma key_for_unknown_provider_is_accepted_witness :
  POST (set_api_key_request "anthropic" "sk-ant") mockLLMProviders
  = Some (mockLLMProviders,
          Answer 200 true (ApiKeySetFor "anthropic") (Some mockLLMProviders)).
Proof.
  apply (key_for_unknown_provider_is_accepted "anthropic" "sk-ant" mockLLMProviders);
    try done.
  intros H. not_in_list H.
Defined.

(** On a sound store, [switch_provider] succeeds exactly for a provider that
    has a key: it then makes it the active one and changes nothing else;
    otherwise it is refused with 400 and the store stays as it was. *)
Theorem switch_succeeds_iff_provider_has_key (n : string) (s : Store) :
  sound s -> n <> "" -> n ∉ inherited ->
  (keyed s n ->
   POST (switch_request n) s
   = Some ({| active_provider := Some n; providers := providers s |},
           Answer 200 true (SwitchedTo n)
             (Some {| active_provider := Some n; providers := providers s |}))) /\
  (~ keyed s n ->
   POST (switch_request n) s
   = Some (s, Answer 400 false (NotInitialized n) None)).
Proof.
  intros (_ & Hflags & _) Hn Hin. unfold POST, switch_request.
  destruct (POST_request_lookups "switch_provider" n ∅) as [-> ->].
  rewrite (named_string n Hn Hin). simpl.
  destruct (providers s !! n) as [p|] eqn:Hp.
  - destruct (Hflags n p Hp) as [_ Hinit]. rewrite Hinit.
    destruct (has_api_key p) eqn:Hk; split; try done.
    + intros Hnot. destruct Hnot. by exists p.
    + intros (p' & Hp' & Hk'). congruence.
  - split; [|done]. unfold keyed. rewrite Hp. by intros (p' & [=] & _).
Qed.

Lemma switch_succeeds_iff_provider_has_key_witness :
  POST (switch_request "grok") mockLLMProviders
  = Some (mockLLMProviders, Answer 400 false (NotInitialized "grok") None) /\
  exists s,
    run two_keys mockLLMProviders = Some s /\
    active_provider s = Some "grok" /\
    POST (switch_request "openai") s
    = Some ({| active_provider := Some "openai"; providers := providers s |},
            Answer 200 true (SwitchedTo "openai")
              (Some {| active_provider := Some "openai"; providers := providers s |})).
Proof.
  split.
  - apply (switch_succeeds_iff_provider_has_key "grok" mockLLMProviders mock_sound);
      [done|intros H; not_in_list H|].
    intros (p & Hp & Hk). vm_compute in Hp. injection Hp as <-. done.
  - eexists. split; [vm_compute; reflexivity|]. split; [reflexivity|].
    refine (proj1 (switch_succeeds_iff_provider_has_key "openai" _
                     (run_sound two_keys mockLLMProviders _ eq_refl mock_sound)
                     _ _) _).
    + done.
    + intros H. not_in_list H.
    + eexists. split; [vm_compute; reflexivity|reflexivity].
Defined.

End LlmProvidersFacts.

(** ** Sequences of presses on the boss state *)

Module BossStatePressFacts.

Import BossStateManager BossStatePresses BossStateNotions BossStateFacts.

Lemma click_offered now action ui s :
  of_value (boss_state ui) = Some s ->
  action ∈ STATE_ACTIONS s ->
  isLoading ui = false ->
  click now action ui = Some (handleStateChange now action ui).
Proof.
  intros Hs Hin Hidle. unfold click, possibleActions.
  rewrite Hs, Hidle. by rewrite bool_decide_eq_true_2.
Qed.

Lemma click_dead_end now action ui :
  of_value (boss_state ui) = None \/ of_value (boss_state ui) = Some STOP ->
  click now action ui = None.
Proof.
  intros Hs.
  destruct (click now action ui) as [ui'|] eqn:Hclick; [|done].
  apply click_Some in Hclick as (Hin & _).
  unfold possibleActions in Hin.
  destruct Hs as [Hs|Hs]; rewrite Hs in Hin; by apply elem_of_nil in Hin.
Qed.

(** From every state but STOP the machine can be stopped with at most two
    presses (STOP itself, or IDLE and then STOP); in STOP, and in a state
    that is none of the nine, no button can be pressed at all. *)
Theorem stop_is_two_presses_away_and_final (ui : UI) (now : Z) :
  (forall s,
     of_value (boss_state ui) = Some s -> s <> STOP -> isLoading ui = false ->
     exists ps ui',
       (length ps <= 2)%nat /\
       presses ps ui = Some ui' /\
       boss_state ui' = "stop" /\
       isLoading ui' = false) /\
  (of_value (boss_state ui) = None \/ of_value (boss_state ui) = Some STOP ->
   forall action, click now action ui = None).
Proof.
  split.
  - intros s Hs Hne Hidle.
    assert (Hdirect : STOP ∈ STATE_ACTIONS s \/ IDLE ∈ STATE_ACTIONS s).
    { destruct s; try done; simpl; solve [left; in_list | right; in_list]. }
    destruct Hdirect as [Hstop|Hidle_next].
    + exists [(now, STOP)], (handleStateChange now STOP ui). simpl.
      rewrite (click_offered now STOP ui s Hs Hstop Hidle).
      split; [lia|]. done.
    + exists [(now, IDLE); (now, STOP)],
        (handleStateChange now STOP (handleStateChange now IDLE ui)). simpl.
      rewrite (click_offered now IDLE ui s Hs Hidle_next Hidle).
      rewrite (click_offered now STOP _ IDLE); [|done|in_list|done].
      split; [lia|]. done.
  - intros Hdead action. by apply click_dead_end.
Qed.

Lemma presses_snoc ps p ui :
  presses (ps ++ [p]) ui
  = match presses ps ui with
    | Some ui' => click p.1 p.2 ui'
    | None => None
    end.
Proof.
  revert ui. induction ps as [|[now a] ps IH]; intros ui; simpl.
  - destruct p as [now a]. simpl. by destruct (click now a ui).
  - destruct (click now a ui) as [ui1|]; [apply IH|done].
Qed.

Lemma presses_follow ps ui ui' :
  presses ps ui = Some ui' ->
  ps = [] \/
  exists s, of_value (boss_state ui) = Some s /\ follows s (snd <$> ps).
Proof.
  revert ui. induction ps as [|[now a] ps IH]; intros ui Hrun; [by left|].
  right. simpl in Hrun.
  destruct (click now a ui) as [ui1|] eqn:Hclick; [|done].
  apply click_Some in Hclick as (Hin & _ & ->).
  unfold possibleActions in Hin.
  destruct (of_value (boss_state ui)) as [s|]; [|by apply elem_of_nil in Hin].
  exists s. split; [done|]. simpl. split; [done|].
  destruct (IH _ Hrun) as [->|(s' & Hs' & Hfollows)]; [done|].
  simpl in Hs'. rewrite of_value_value in Hs'. by injection Hs' as <-.
Qed.

(** Every change made through the buttons is on record: after a sequence of
    presses the history is the old history with one entry for each press,
    in order, one "State Changed" toast was shown for each, the states
    pressed follow one another from the first state along [STATE_ACTIONS],
    and the state shown is the one of the last entry. *)
Theorem pressed_changes_are_recorded_and_permitted (ps : list (Z * BossState))
    (ui ui' : UI) :
  presses ps ui = Some ui' ->
  stateHistory ui' = stateHistory ui ++ (recorded <$> ps) /\
  length (toasts ui') = (length (toasts ui) + length ps)%nat /\
  (ps = [] \/
   exists s, of_value (boss_state ui) = Some s /\ follows s (snd <$> ps)) /\
  (forall p, last ps = Some p ->
     boss_state ui' = value p.2 /\
     last (stateHistory ui') = Some (recorded p)).
Proof.
  intros Hrun. split; [|split; [|split]].
  - revert ui Hrun. induction ps as [|[now a] ps IH]; intros ui Hrun; simpl in *.
    + injection Hrun as <-. by rewrite app_nil_r.
    + destruct (click now a ui) as [ui1|] eqn:Hclick; [|done].
      apply click_Some in Hclick as (_ & _ & ->).
      rewrite (IH _ Hrun). simpl. by rewrite <- app_assoc.
  - revert ui Hrun. induction ps as [|[now a] ps IH]; intros ui Hrun; simpl in *.
    + injection Hrun as <-. lia.
    + destruct (click now a ui) as [ui1|] eqn:Hclick; [|done].
      apply click_Some in Hclick as (_ & _ & ->).
      rewrite (IH _ Hrun). simpl. rewrite length_app. simpl. lia.
  - by eapply presses_follow.
  - intros p Hlast.
    destruct ps as [|p0 ps0] using rev_ind; [done|]. clear IHps0.
    rewrite last_snoc in Hlast. injection Hlast as ->.
    rewrite presses_snoc in Hrun.
    destruct (presses ps0 ui) as [ui1|]; [|done].
    destruct p as [now a]. simpl in *.
    apply click_Some in Hrun as (_ & _ & ->).
    split; [done|]. simpl. by rewrite last_snoc.
Qed.

Lemma pressed_changes_are_recorded_and_permitted_witness :
  exists ui',
    presses [(1755475260000, AWAKE); (1755475320000, THINKING)]
      (initial "idle" 1755475200000) = Some ui' /\
    boss_state ui' = "thinking" /\
    length (stateHistory ui') = 6%nat.
Proof.
  eexists. split; [reflexivity|].
  destruct (pressed_changes_are_recorded_and_permitted
              [(1755475260000, AWAKE); (1755475320000, THINKING)]
              (initial "idle" 1755475200000) _ eq_refl)
    as (Hhistory & _ & _ & Hlast).
  split; [apply (Hlast (1755475320000, THINKING) eq_refl)|].
  by rewrite Hhistory.
Defined.

End BossStatePressFacts.

(** ** The task board: counters, lifecycle and filters *)

Module TaskBoardFacts.

Import TaskManagement TaskManagementCases TaskCounts TaskBoardNotions.
Import TaskManagementFacts.

Lemma count_nil st : count st [] = 0.
Proof. done. Qed.

Lemma count_cons st task l :
  count st (task :: l)
  = (if decide (status task = st) then 1 else 0) + count st l.
Proof.
  unfold count. rewrite filter_cons.
  destruct (decide (status task = st)); simpl; lia.
Qed.

(** The four counters shown above the task list, together with the number
    of CANCELLED tasks, which has no counter, add up to the counter "all";
    no counter is negative. *)
Theorem counters_add_up_to_all_but_cancelled (ui : UI) :
  all (taskCounts ui)
  = pending (taskCounts ui) + running (taskCounts ui)
    + completed (taskCounts ui) + failed (taskCounts ui)
    + count CANCELLED (tasks ui) /\
  0 <= pending (taskCounts ui) /\ 0 <= running (taskCounts ui) /\
  0 <= completed (taskCounts ui) /\ 0 <= failed (taskCounts ui) /\
  all (taskCounts ui) = Z.of_nat (length (tasks ui)).
Proof.
  unfold taskCounts. simpl. split; [|unfold count; lia].
  induction (tasks ui) as [|task l IH]; [done|].
  rewrite !count_cons. rewrite length_cons, Nat2Z.inj_succ, IH.
  destruct (status task); repeat case_decide; try done; lia.
Qed.

Lemma fmap_updater_absent action taskId (l : list TaskDefinition) :
  taskId ∉ id <$> l -> updater action taskId <$> l = l.
Proof.
  intros Hnot. rewrite <- (list_fmap_id l) at 2. apply list_fmap_ext.
  intros i task Hi. apply updater_other. intros <-.
  apply Hnot, list_elem_of_fmap_2. by eapply list_elem_of_lookup_2.
Qed.

(** An action on a task of a board with distinct ids moves that task, and
    no other, between the statuses. *)
Lemma count_updater st action task (l : list TaskDefinition) :
  NoDup (id <$> l) -> task ∈ l ->
  count st (updater action (id task) <$> l)
  = count st l - (if decide (status task = st) then 1 else 0)
    + (if decide (status (updater action (id task) task) = st) then 1 else 0).
Proof.
  induction l as [|x l IH]; intros Hnd Hin; [by apply elem_of_nil in Hin|].
  rewrite fmap_cons in Hnd. apply NoDup_cons in Hnd as [Hx Hnd].
  rewrite fmap_cons, !count_cons.
  apply elem_of_cons in Hin as [->|Hin].
  - rewrite fmap_updater_absent by done. lia.
  - assert (Hne : id x <> id task).
    { intros Heq. apply Hx. rewrite Heq. by apply list_elem_of_fmap_2. }
    rewrite (updater_other action (id task) x Hne), IH by done. lia.
Qed.

Lemma press_tasks task action ui ui' :
  step (Press task action) ui = Some ui' ->
  task ∈ tasks ui /\ offered action task = true /\
  tasks ui' = updater action (id task) <$> tasks ui.
Proof.
  simpl.
  destruct (bool_decide (task ∈ filteredTasks ui)) eqn:Hin; [|done].
  destruct (offered action task) eqn:Hoff; [|done].
  destruct (isLoading ui); [done|]. simpl.
  intros [= <-]. apply bool_decide_eq_true in Hin.
  split; [by apply filteredTasks_subset|]. split; [done|].
  apply handleTaskAction_tasks.
Qed.

Lemma updater_relabelled action task :
  updater action (id task) task
  = match action with
    | retry => relabelled PENDING (retry_count task + 1) task
    | cancel => relabelled CANCELLED (retry_count task) task
    end.
Proof.
  destruct action; simpl; unfold retried, cancelled;
    by rewrite String.eqb_refl.
Qed.

(** On a board with distinct ids, a press on a rendered button moves exactly
    one task from one counter to another: a retry takes one from "failed"
    and adds one to "pending"; a cancel takes one from "pending" or from
    "running", whichever the task was in, and adds it to no counter.  The
    counters "all" and "completed" never change. *)
Theorem press_moves_one_task_between_counters (ui ui' : UI)
    (task : TaskDefinition) (action : Action) :
  NoDup (id <$> tasks ui) ->
  step (Press task action) ui = Some ui' ->
  all (taskCounts ui') = all (taskCounts ui) /\
  completed (taskCounts ui') = completed (taskCounts ui) /\
  match action with
  | retry =>
      failed (taskCounts ui') = failed (taskCounts ui) - 1 /\
      pending (taskCounts ui') = pending (taskCounts ui) + 1 /\
      running (taskCounts ui') = running (taskCounts ui) /\
      count CANCELLED (tasks ui') = count CANCELLED (tasks ui)
  | cancel =>
      failed (taskCounts ui') = failed (taskCounts ui) /\
      count CANCELLED (tasks ui') = count CANCELLED (tasks ui) + 1 /\
      (status task = PENDING /\
       pending (taskCounts ui') = pending (taskCounts ui) - 1 /\
       running (taskCounts ui') = running (taskCounts ui)
       \/
       status task = RUNNING /\
       pending (taskCounts ui') = pending (taskCounts ui) /\
       running (taskCounts ui') = running (taskCounts ui) - 1)
  end.
Proof.
  intros Hnd (Hin & Hoff & Htasks)%press_tasks.
  unfold taskCounts. simpl. rewrite Htasks.
  split; [by rewrite length_fmap|].
  rewrite !(count_updater _ action task (tasks ui) Hnd Hin).
  rewrite updater_relabelled.
  destruct action; simpl in *.
  - unfold retry_offered in Hoff. apply andb_true_iff in Hoff as [Hst _].
    apply bool_decide_eq_true in Hst. rewrite Hst.
    repeat case_decide; try done. repeat split; lia.
  - unfold cancel_offered in Hoff. apply orb_true_iff in Hoff.
    destruct Hoff as [Hst|Hst]; apply bool_decide_eq_true in Hst; rewrite Hst;
      repeat case_decide; try done.
    + split; [lia|]. split; [lia|]. split; [lia|]. left. split; [done|lia].
    + split; [lia|]. split; [lia|]. split; [lia|]. right. split; [done|lia].
Qed.

Lemma press_moves_one_task_between_counters_witness :
  step (Press in_flight cancel) board
  = Some (handleTaskAction "task_3" cancel board) /\
  all (taskCounts (handleTaskAction "task_3" cancel board)) = 4 /\
  completed (taskCounts (handleTaskAction "task_3" cancel board)) = 1.
Proof.
  split; [reflexivity|].
  destruct (press_moves_one_task_between_counters board
              (handleTaskAction "task_3" cancel board) in_flight cancel
              board_ids_distinct eq_refl) as (Hall & Hcompleted & _).
  split.
  - rewrite Hall. reflexivity.
  - rewrite Hcompleted. reflexivity.
Defined.

(** What one event does to the task at a position. *)
Lemma step_lifecycle e ui ui' i task :
  NoDup (id <$> tasks ui) ->
  step e ui = Some ui' ->
  tasks ui !! i = Some task ->
  exists task',
    tasks ui' !! i = Some task' /\
    (task' = task \/
     status task = FAILED /\ retry_count task < max_retries task /\
     task' = relabelled PENDING (retry_count task + 1) task \/
     (status task = PENDING \/ status task = RUNNING) /\
     task' = relabelled CANCELLED (retry_count task) task).
Proof.
  intros Hnd Hstep Hi.
  apply step_tasks in Hstep as [->|(pressed & action & Hin & Hoff & ->)].
  { exists task. split; [done|by left]. }
  rewrite list_lookup_fmap, Hi. simpl. eexists. split; [done|].
  destruct (decide (id task = id pressed)) as [Hid|Hid].
  - assert (pressed = task) as -> by (by apply (unique_by_id (tasks ui) i)).
    rewrite updater_relabelled. right. destruct action; simpl in Hoff.
    + left. unfold retry_offered in Hoff.
      apply andb_true_iff in Hoff as [Hst Hlt].
      apply bool_decide_eq_true in Hst. apply Z.ltb_lt in Hlt. done.
    + right. unfold cancel_offered in Hoff. apply orb_true_iff in Hoff.
      split; [|done].
      destruct Hoff as [Hst|Hst]; apply bool_decide_eq_true in Hst; auto.
  - left. by apply updater_other.
Qed.

Lemma step_length e ui ui' :
  step e ui = Some ui' -> length (tasks ui') = length (tasks ui).
Proof.
  intros Hstep. apply step_ids in Hstep.
  apply (f_equal length) in Hstep. by rewrite !length_fmap in Hstep.
Qed.

(** A task that is RUNNING, COMPLETED or FAILED after some events was there,
    unchanged, before them. *)
Lemma run_never_starts_or_ends es ui ui' i task' :
  NoDup (id <$> tasks ui) ->
  run es ui = Some ui' ->
  tasks ui' !! i = Some task' ->
  status task' = RUNNING \/ status task' = COMPLETED \/ status task' = FAILED ->
  tasks ui !! i = Some task'.
Proof.
  revert ui. induction es as [|e es IH]; intros ui Hnd Hrun Hi' Hst.
  - simpl in Hrun. by simplify_eq.
  - simpl in Hrun. destruct (step e ui) as [ui1|] eqn:Hstep; [|done].
    assert (Hi1 : tasks ui1 !! i = Some task').
    { apply (IH ui1); [|done..]. by rewrite (step_ids _ _ _ Hstep). }
    destruct (tasks ui !! i) as [task|] eqn:Hi.
    + destruct (step_lifecycle e ui ui1 i task Hnd Hstep Hi)
        as (task1 & Hi1' & Hcases).
      rewrite Hi1 in Hi1'. injection Hi1' as <-.
      destruct Hcases as [->|[(_ & _ & ->)|(_ & ->)]]; [done|exfalso..];
        simpl in Hst; by destruct Hst as [|[|]].
    + apply lookup_ge_None in Hi. apply lookup_lt_Some in Hi1.
      rewrite (step_length _ _ _ Hstep) in Hi1. lia.
Qed.

(** The life of a task on a board with distinct ids.  One event leaves the
    task at a position as it is, or sets a FAILED task with retries left
    back to PENDING with one more retry counted, or sets a PENDING or
    RUNNING task to CANCELLED; nothing but the status and the retry count
    ever changes.  Hence, whatever the user does, COMPLETED and CANCELLED
    tasks stay as they are, and the board never starts, completes or fails a
    task: one that is RUNNING, COMPLETED or FAILED afterwards was so
    before. *)
Theorem task_changes_along_the_lifecycle_only (ui : UI) :
  NoDup (id <$> tasks ui) ->
  (forall e ui' i task,
     step e ui = Some ui' ->
     tasks ui !! i = Some task ->
     exists task',
       tasks ui' !! i = Some task' /\
       (task' = task \/
        status task = FAILED /\ retry_count task < max_retries task /\
        task' = relabelled PENDING (retry_count task + 1) task \/
        (status task = PENDING \/ status task = RUNNING) /\
        task' = relabelled CANCELLED (retry_count task) task)) /\
  (forall es ui' i task,
     run es ui = Some ui' ->
     tasks ui !! i = Some task ->
     status task = COMPLETED \/ status task = CANCELLED ->
     tasks ui' !! i = Some task) /\
  (forall es ui' i task',
     run es ui = Some ui' ->
     tasks ui' !! i = Some task' ->
     status task' = RUNNING \/ status task' = COMPLETED \/ status task' = FAILED ->
     tasks ui !! i = Some task').
Proof.
  intros Hnd. split; [|split].
  - intros e ui' i task Hstep Hi. by eapply step_lifecycle.
  - intros es ui' i task Hrun Hi Hst.
    eapply run_keeps_unoffered; [done..|].
    intros []; simpl; unfold retry_offered, cancel_offered;
      destruct Hst as [->| ->]; done.
  - intros es ui' i task' Hrun Hi' Hst. by eapply run_never_starts_or_ends.
Qed.

Lemma task_changes_along_the_lifecycle_only_witness :
  run [SelectStatus "running"; Press in_flight cancel; TypeQuery "task"] board
  = Some (setSearchQuery "task"
            (handleTaskAction "task_3" cancel (setSelectedStatus "running" board))) /\
  tasks (setSearchQuery "task"
           (handleTaskAction "task_3" cancel (setSelectedStatus "running" board)))
    !! 3%nat = Some finished.
Proof.
  split; [reflexivity|].
  destruct (task_changes_along_the_lifecycle_only board board_ids_distinct)
    as (_ & Hfinal & _).
  apply (Hfinal [SelectStatus "running"; Press in_flight cancel; TypeQuery "task"]
           _ 3%nat finished eq_refl eq_refl).
  by left.
Defined.

Lemma filter_sublist {A} (f : A -> bool) (l : list A) :
  List.filter f l `sublist_of` l.
Proof.
  induction l as [|x l IH]; simpl; [done|].
  destruct (f x); by constructor.
Qed.

Lemma lower_upper c : Str.lower (Str.upper c) = Str.lower c.
Proof. destruct c as [[] [] [] [] [] [] [] []]; reflexivity. Qed.

Lemma lower_lower c : Str.lower (Str.lower c) = Str.lower c.
Proof. destruct c as [[] [] [] [] [] [] [] []]; reflexivity. Qed.

Lemma toLowerCase_toUpperCase s :
  Str.toLowerCase (Str.toUpperCase s) = Str.toLowerCase s.
Proof.
  unfold Str.toLowerCase, Str.toUpperCase.
  induction s as [|c s IH]; simpl; [done|]. by rewrite lower_upper, IH.
Qed.

Lemma toLowerCase_toLowerCase s :
  Str.toLowerCase (Str.toLowerCase s) = Str.toLowerCase s.
Proof.
  unfold Str.toLowerCase.
  induction s as [|c s IH]; simpl; [done|]. by rewrite lower_lower, IH.
Qed.

Lemma filteredTasks_same_query ui q q' :
  Str.toLowerCase q' = Str.toLowerCase q ->
  filteredTasks (setSearchQuery q' ui) = filteredTasks (setSearchQuery q ui).
Proof.
  intros Hq. unfold filteredTasks. simpl.
  assert (Hempty : String.eqb q' "" = String.eqb q "").
  { destruct q, q'; try done; unfold Str.toLowerCase in Hq; simpl in Hq;
      discriminate Hq. }
  rewrite Hempty. destruct (negb (String.eqb q "")); [|done].
  apply List.filter_ext. intros task. unfold matches_query. by rewrite Hq.
Qed.

(** The list shown is the stored list with tasks left out, in the stored
    order; with a status selected, every task shown has it; and, for a
    search text of ASCII characters, the case of the text makes no
    difference to what is shown. *)
Theorem shown_tasks_are_stored_tasks_that_match (ui : UI) :
  filteredTasks ui `sublist_of` tasks ui /\
  (selectedStatus ui <> "all" ->
   forall task, task ∈ filteredTasks ui -> value (status task) = selectedStatus ui) /\
  (selectedStatus ui = "all" -> searchQuery ui = "" ->
   filteredTasks ui = tasks ui) /\
  (forall q, ascii_only q ->
     filteredTasks (setSearchQuery (Str.toUpperCase q) ui)
     = filteredTasks (setSearchQuery q ui) /\
     filteredTasks (setSearchQuery (Str.toLowerCase q) ui)
     = filteredTasks (setSearchQuery q ui)).
Proof.
  split; [|split; [|split]].
  - unfold filteredTasks.
    destruct (negb (String.eqb (searchQuery ui) ""));
      destruct (negb (String.eqb (selectedStatus ui) "all")); try done.
    + etrans; apply filter_sublist.
    + apply filter_sublist.
    + apply filter_sublist.
  - intros Hsel task Hin. unfold filteredTasks in Hin.
    apply String.eqb_neq in Hsel. rewrite Hsel in Hin. simpl in Hin.
    assert (Hstatus : task ∈ List.filter (matches_status (selectedStatus ui)) (tasks ui)).
    { destruct (negb (String.eqb (searchQuery ui) "")); [|done].
      by apply list_elem_of_In, List.filter_In in Hin as [Hin%list_elem_of_In _]. }
    apply list_elem_of_In, List.filter_In in Hstatus as [_ Hmatch].
    by apply String.eqb_eq in Hmatch.
  - intros Hsel Hq. unfold filteredTasks. by rewrite Hsel, Hq.
  - intros q _. split; apply filteredTasks_same_query.
    + apply toLowerCase_toUpperCase.
    + apply toLowerCase_toLowerCase.
Qed.

Lemma fmap_updater_commute a1 a2 id1 id2 (l : list TaskDefinition) :
  id1 <> id2 ->
  updater a1 id1 <$> (updater a2 id2 <$> l)
  = updater a2 id2 <$> (updater a1 id1 <$> l).
Proof.
  intros Hne. rewrite <- !list_fmap_compose. apply list_fmap_ext.
  intros _ task _. simpl.
  destruct (decide (id task = id1)) as [H1|H1].
  - assert (H2 : id task <> id2) by congruence.
    rewrite (updater_other a2 id2 task H2).
    symmetry. apply updater_other. by rewrite updater_id.
  - rewrite (updater_other a1 id1 task H1).
    apply updater_other. by rewrite updater_id.
Qed.

(** [handleTaskAction] itself, which checks nothing: its actions on tasks
    with different ids can be done in either order; to cancel twice is to
    cancel once; and every retry adds one to the retry count of the task,
    whatever its status and its maximum. *)
Theorem task_actions_commute_and_cancel_is_idempotent (ui : UI) :
  (forall a1 a2 id1 id2,
     id1 <> id2 ->
     tasks (handleTaskAction id1 a1 (handleTaskAction id2 a2 ui))
     = tasks (handleTaskAction id2 a2 (handleTaskAction id1 a1 ui))) /\
  (forall taskId,
     tasks (handleTaskAction taskId cancel (handleTaskAction taskId cancel ui))
     = tasks (handleTaskAction taskId cancel ui)) /\
  (forall i task,
     tasks ui !! i = Some task ->
     tasks (handleTaskAction (id task) retry (handleTaskAction (id task) retry ui)) !! i
     = Some (relabelled PENDING (retry_count task + 2) task)).
Proof.
  split; [|split].
  - intros a1 a2 id1 id2 Hne. rewrite !handleTaskAction_tasks.
    by apply fmap_updater_commute.
  - intros taskId. rewrite !handleTaskAction_tasks.
    rewrite <- list_fmap_compose. apply list_fmap_ext.
    intros _ task _. simpl. unfold cancelled.
    destruct (String.eqb (id task) taskId) eqn:Hid; simpl; by rewrite Hid.
  - intros i task Hi. rewrite !handleTaskAction_tasks.
    rewrite !list_lookup_fmap, Hi. simpl. unfold retried.
    rewrite String.eqb_refl. simpl. rewrite String.eqb_refl.
    unfold relabelled. simpl. do 2 f_equal. lia.
Qed.

End TaskBoardFacts.

(** ** The dashboard utilities *)

Module DashboardUtilsFacts.

Import DashboardUtils TaskBoardNotions.

(** [formatRelativeTime] floors the age of a timestamp to whole units: an
    age under a minute (a timestamp in the future included, whose age is
    negative) is printed in seconds, one under an hour in minutes, one under
    a day in hours and any other in days, each time the age in milliseconds
    divided by the length of the unit and rounded down.  A timestamp that
    does not parse is printed as "NaNd ago". *)
Theorem relative_time_is_the_age_floored_to_its_unit (now t : Z) :
  (now - t < 60000 ->
   formatRelativeTime now (Some t) = pretty ((now - t) / 1000) +:+ "s ago") /\
  (60000 <= now - t < 3600000 ->
   formatRelativeTime now (Some t) = pretty ((now - t) / 60000) +:+ "m ago" /\
   1 <= (now - t) / 60000 < 60) /\
  (3600000 <= now - t < 86400000 ->
   formatRelativeTime now (Some t) = pretty ((now - t) / 3600000) +:+ "h ago" /\
   1 <= (now - t) / 3600000 < 24) /\
  (86400000 <= now - t ->
   formatRelativeTime now (Some t) = pretty ((now - t) / 86400000) +:+ "d ago" /\
   1 <= (now - t) / 86400000) /\
  (now < t -> (now - t) / 1000 < 0) /\
  formatRelativeTime now None = "NaNd ago".
Proof.
  unfold formatRelativeTime.
  assert (Hm : (now - t) / 1000 / 60 = (now - t) / 60000).
  { rewrite Z.div_div by lia. done. }
  assert (Hh : (now - t) / 1000 / 3600 = (now - t) / 3600000).
  { rewrite Z.div_div by lia. done. }
  assert (Hd : (now - t) / 1000 / 86400 = (now - t) / 86400000).
  { rewrite Z.div_div by lia. done. }
  repeat split.
  - intros Hage.
    destruct (Z.ltb_spec ((now - t) / 1000) 60) as [_|Hge]; [done|].
    exfalso. Z.to_euclidean_division_equations. lia.
  - destruct (Z.ltb_spec ((now - t) / 1000) 60) as [Hlt|_].
    { exfalso. Z.to_euclidean_division_equations. lia. }
    destruct (Z.ltb_spec ((now - t) / 1000) 3600) as [_|Hge].
    { by rewrite Hm. }
    exfalso. Z.to_euclidean_division_equations. lia.
  - Z.to_euclidean_division_equations. lia.
  - Z.to_euclidean_division_equations. lia.
  - destruct (Z.ltb_spec ((now - t) / 1000) 60) as [Hlt|_].
    { exfalso. Z.to_euclidean_division_equations. lia. }
    destruct (Z.ltb_spec ((now - t) / 1000) 3600) as [Hlt|_].
    { exfalso. Z.to_euclidean_division_equations. lia. }
    destruct (Z.ltb_spec ((now - t) / 1000) 86400) as [_|Hge].
    { by rewrite Hh. }
    exfalso. Z.to_euclidean_division_equations. lia.
  - Z.to_euclidean_division_equations. lia.
  - Z.to_euclidean_division_equations. lia.
  - destruct (Z.ltb_spec ((now - t) / 1000) 60) as [Hlt|_].
    { exfalso. Z.to_euclidean_division_equations. lia. }
    destruct (Z.ltb_spec ((now - t) / 1000) 3600) as [Hlt|_].
    { exfalso. Z.to_euclidean_division_equations. lia. }
    destruct (Z.ltb_spec ((now - t) / 1000) 86400) as [Hlt|_].
    { exfalso. Z.to_euclidean_division_equations. lia. }
    by rewrite Hd.
  - Z.to_euclidean_division_equations. lia.
  - Z.to_euclidean_division_equations. lia.
Qed.

(** For a status of ASCII characters, the colour does not depend on the
    case in which the status is written. *)
Theorem status_colour_ignores_case (s : string) :
  ascii_only s ->
  getStatusColor (Str.toUpperCase s) = getStatusColor s /\
  getStatusColor (Str.toLowerCase s) = getStatusColor s.
Proof.
  intros _. unfold getStatusColor. simpl.
  by rewrite TaskBoardFacts.toLowerCase_toUpperCase,
    TaskBoardFacts.toLowerCase_toLowerCase.
Qed.

Lemma status_colour_ignores_case_witness :
  getStatusColor "ACTIVE" = "text-green-600" /\
  getStatusColor "Active" = "text-green-600".
Proof.
  assert (Hascii : ascii_only "Active").
  { apply (bool_decide_unpack _). vm_compute. exact I. }
  destruct (status_colour_ignores_case "Active" Hascii) as [Hupper _].
  split.
  - exact (eq_trans Hupper eq_refl).
  - reflexivity.
Defined.

End DashboardUtilsFacts.

(** ** The [limit] parameter of task retrieval *)

Module TasksLimitFacts.

Import TasksApi TasksApiCases TasksLimitNotions TasksApiFacts.

Ltac digit_cases d Hd :=
  let H := fresh in
  assert (H : (d = 0 \/ d = 1 \/ d = 2 \/ d = 3 \/ d = 4 \/ d = 5 \/ d = 6 \/
              d = 7 \/ d = 8 \/ d = 9)%N) by lia;
  clear Hd;
  destruct H as [->|[->|[->|[->|[->|[->|[->|[->|[->| ->]]]]]]]]].

Lemma digit_value_pretty d :
  (d < 10)%N -> digit_value 10 (pretty_N_char d) = Some (Z.of_N d).
Proof. intros Hd. digit_cases d Hd; reflexivity. Qed.

Lemma all_digits_pretty_go x s : all_digits s -> all_digits (pretty_N_go x s).
Proof.
  revert s. induction (N.lt_wf_0 x) as [x _ IH]. intros s Hs.
  destruct (decide (0 < x)%N) as [Hpos|Hzero].
  - rewrite pretty_N_go_step by done. apply IH.
    + by apply N.div_lt.
    + split; [|done]. exists (x mod 10)%N. split; [|done].
      by apply N.mod_lt.
  - assert (x = 0%N) as -> by lia. by rewrite pretty_N_go_0.
Qed.

Lemma digits_pretty_go x s :
  (0 < x)%N ->
  digits 10 None (pretty_N_go x s) = digits 10 (Some (Z.of_N x)) s.
Proof.
  revert s. induction (N.lt_wf_0 x) as [x _ IH]. intros s Hpos.
  rewrite pretty_N_go_step by done.
  assert (Hmod : (x mod 10 < 10)%N) by (by apply N.mod_lt).
  assert (Hx : Z.of_N x = 10 * Z.of_N (x / 10) + Z.of_N (x mod 10)).
  { rewrite (N.div_mod x 10) at 1 by done. lia. }
  destruct (decide (0 < x / 10)%N) as [Hdiv|Hdiv].
  - rewrite IH; [|by apply N.div_lt|done].
    simpl. rewrite digit_value_pretty by done. simpl. by rewrite Hx.
  - assert (Hzero : (x / 10 = 0)%N) by lia.
    rewrite Hzero in *. rewrite pretty_N_go_0.
    simpl. rewrite digit_value_pretty by done. simpl. by rewrite Hx.
Qed.

Lemma digits_pretty_pos p :
  all_digits (pretty (Npos p)) /\
  digits 10 None (pretty (Npos p)) = Some (Zpos p).
Proof.
  unfold pretty, pretty_N. simpl. split.
  - by apply all_digits_pretty_go.
  - by rewrite digits_pretty_go.
Qed.

Lemma skip_white_digit d r :
  (d < 10)%N ->
  skip_white (String (pretty_N_char d) r) = String (pretty_N_char d) r.
Proof.
  intros Hd. digit_cases d Hd; destruct r as [|c2 [|c3 r3]]; reflexivity.
Qed.

Lemma skip_white_minus r : skip_white (String "-" r) = String "-" r.
Proof. destruct r as [|c2 [|c3 r3]]; reflexivity. Qed.

(** On a string of decimal digits [parseInt] reads no white space, no sign
    and no [0x]. *)
Lemma parseInt_all_digits s :
  all_digits s ->
  parseInt s = digits 10 None s /\
  parseInt (String "-" s) = Z.opp <$> digits 10 None s.
Proof.
  intros Hs.
  destruct s as [|c s]; [done|]. destruct Hs as [(d & Hd & ->) Hs].
  destruct s as [|c' s].
  - digit_cases d Hd; done.
  - destruct Hs as [(d' & Hd' & ->) Hs]. unfold parseInt.
    rewrite skip_white_minus, skip_white_digit by done.
    digit_cases d Hd;
      try (split; lazy -[digits Z.opp]; by destruct (digits _ _ _));
      digit_cases d' Hd'; split; lazy -[digits Z.opp]; by destruct (digits _ _ _).
Qed.

(** [parseInt] reads back what [pretty] writes. *)
Lemma parseInt_pretty (n : Z) : parseInt (pretty n) = Some n.
Proof.
  destruct n as [|p|p]; [done| |].
  - destruct (digits_pretty_pos p) as [Hall Hdigits].
    change (pretty (Z.pos p)) with (pretty (Npos p)).
    by rewrite (proj1 (parseInt_all_digits _ Hall)), Hdigits.
  - destruct (digits_pretty_pos p) as [Hall Hdigits].
    change (pretty (Z.neg p)) with (String "-" (pretty (Npos p))).
    by rewrite (proj2 (parseInt_all_digits _ Hall)), Hdigits.
Qed.

Lemma pretty_nonempty (n : Z) : String.eqb (pretty n) "" = false.
Proof.
  destruct (String.eqb_spec (pretty n) "") as [Hempty|]; [|done].
  pose proof (parseInt_pretty n) as Hparse. by rewrite Hempty in Hparse.
Qed.

(** White space before the number is not read. *)
Lemma parseInt_white w s : w ∈ white_space -> parseInt (w +:+ s) = parseInt s.
Proof.
  intros Hw. unfold parseInt.
  assert (Hskip : skip_white (w +:+ s) = skip_white s); [|by rewrite Hskip].
  unfold white_space in Hw. rewrite !fmap_cons in Hw.
  repeat (apply elem_of_cons in Hw as [->|Hw]; [reflexivity|]).
  by apply elem_of_nil in Hw.
Qed.

Lemma white_space_nonempty w s : w ∈ white_space -> String.eqb (w +:+ s) "" = false.
Proof.
  intros Hw. unfold white_space in Hw. rewrite !fmap_cons in Hw.
  repeat (apply elem_of_cons in Hw as [->|Hw]; [reflexivity|]).
  by apply elem_of_nil in Hw.
Qed.

(** What the [limit] parameter of [GET /api/tasks] does to the tasks that
    have the requested status.  A positive limit keeps the first that many
    of them; a limit of zero, and a limit in which [parseInt] finds no
    number, keep them all, however many there are; a negative limit leaves
    out that many from the end; an empty limit is no limit given, so that
    the first hundred are kept; and white space before a limit, a
    no-break space as much as a blank, makes no difference. *)
Theorem limit_of_task_retrieval (stored : list TaskType) (status : option string) :
  (forall n, 0 < n ->
     GET stored status (Some (pretty n))
     = Listed 200 (take (Z.to_nat n) (with_status status stored))) /\
  GET stored status (Some (pretty 0)) = Listed 200 (with_status status stored) /\
  (forall n, 0 < n ->
     GET stored status (Some (pretty (- n)))
     = Listed 200 (take (length (with_status status stored) - Z.to_nat n)
                     (with_status status stored))) /\
  (forall limit, limit <> "" -> parseInt limit = None ->
     GET stored status (Some limit) = Listed 200 (with_status status stored)) /\
  GET stored status (Some "") = GET stored status None /\
  (forall w limit, w ∈ white_space -> limit <> "" ->
     GET stored status (Some (w +:+ limit)) = GET stored status (Some limit)).
Proof.
  split; [|split; [|split; [|split; [|split]]]].
  - intros n Hn. unfold GET. fold (with_status status stored).
    unfold or_else. rewrite pretty_nonempty, parseInt_pretty.
    destruct (Z.eqb_spec n 0) as [?|_]; [lia|].
    f_equal. apply slice0_nonneg. lia.
  - done.
  - intros n Hn. unfold GET. fold (with_status status stored).
    unfold or_else. rewrite pretty_nonempty, parseInt_pretty.
    destruct (Z.eqb_spec (- n) 0) as [?|_]; [lia|].
    f_equal. unfold slice0.
    destruct (Z.ltb_spec (- n) 0) as [_|?]; [|lia].
    f_equal. lia.
  - intros limit Hne Hnone. unfold GET. fold (with_status status stored).
    unfold or_else. apply String.eqb_neq in Hne. by rewrite Hne, Hnone.
  - done.
  - intros w limit Hw Hne. unfold GET, or_else.
    apply String.eqb_neq in Hne.
    by rewrite Hne, (white_space_nonempty w limit Hw), (parseInt_white w limit Hw).
Qed.

End TasksLimitFacts.
